(** * HSDP connector: login dispatcher and identity resolver

    A shallow embedding of [connector/hsdp/hsdp.go] (package [hsdp]) and the
    properties its specification states about it.

    The connector talks to several collaborators: the OIDC provider
    (userinfo), the OAuth2 client library (code exchange, refresh-token
    redemption, authorization URL), the token endpoint reached through
    [doRequest], the introspection call, the IAM profile client, the JSON
    codec and [net/url].  They are gathered in the class [Collaborators];
    calls that reach the network thread an abstract [World] and are recorded,
    with their answers, in a trace of [Event]s. *)

From stdpp Require Import base option list strings gmap.
From Stdlib Require Import ZArith Strings.Byte Strings.Ascii.

Set Warnings "-register-all".

Local Open Scope string_scope.
Local Open Scope Z_scope.

(** ** Go values *)

(** A Go [string] is a [string]; a [[]byte] is [option (list byte)], with
    [None] for the nil slice (what a zero-valued struct field holds) and
    [Some bs] for an allocated slice such as [[]byte(s)]. *)
Abbreviation gobytes := (option (list byte)).

Definition bytesOf (s : string) : gobytes := Some (String.list_byte_of_string s).

(** Errors returned by library calls, carried by their message. *)
Abbreviation liberror := string (only parsing).

(** What [encoding/json] decodes into an [interface{}]. A number is kept as
    its literal: the connector never looks inside one. *)
Inductive JValue :=
| JNull
| JBool (b : bool)
| JNumber (literal : string)
| JString (s : string)
| JArray (items : list JValue)
| JObject (fields : list (string * JValue)).

(** [claims map[string]interface{}]: a nil map reads like the empty one. *)
Abbreviation Claims := (gmap string JValue).

(** [v, ok := claims[key].(string)]: a missing key yields the nil interface,
    on which the assertion fails like on any non-string value. *)
Definition claimString (claims : Claims) (key : string) : string * bool :=
  match claims !! key with
  | Some (JString s) => (s, true)
  | _ => ("", false)
  end.

(** [time.Time], to the precision the connector uses it with. *)
Inductive Time :=
| TimeZero
| UnixNano (ns : Z).

Definition time_Unix (sec nsec : Z) : Time := UnixNano (sec * 1000000000 + nsec).

Definition time_Hour : Z := 3600 * 1000000000.

Definition time_Add (t : Time) (d : Z) : Time :=
  match t with
  | TimeZero => TimeZero
  | UnixNano ns => UnixNano (ns + d)
  end.

(** ** [net/url] values *)

(** [url.Values] is [map[string][]string]. *)
Abbreviation Values := (gmap string (list string)).

Definition Values_Get (v : Values) (key : string) : string :=
  match v !! key with
  | Some (x :: _) => x
  | _ => ""
  end.

Definition Values_Set (key value : string) (v : Values) : Values :=
  <[key := [value]]> v.

Definition Values_Add (key value : string) (v : Values) : Values :=
  <[key := (default [] (v !! key) ++ [value])%list]> v.

(** ** [oauth2] values *)

Record Token := {
  AccessToken : string;
  TokenType : string;
  RefreshToken : string;
  Expiry : Time;
}.

Inductive AuthStyle := AuthStyleAutoDetect | AuthStyleInParams | AuthStyleInHeader.

Record Endpoint := {
  AuthURL : string;
  TokenURL : string;
  EndpointAuthStyle : AuthStyle;
}.

Record OAuth2Config := {
  cfgClientID : string;
  cfgClientSecret : string;
  cfgEndpoint : Endpoint;
  Scopes : list string;
  RedirectURL : string;
}.

(** An [oauth2.AuthCodeOption] made by [oauth2.SetAuthURLParam]. *)
Definition AuthCodeOption : Type := string * string.
Definition SetAuthURLParam (key value : string) : AuthCodeOption := (key, value).
Definition AccessTypeOffline : AuthCodeOption := SetAuthURLParam "access_type" "offline".

(** ** Connector types *)

Record Extension := {
  IntrospectionEndpoint : string;
}.

Record Config := {
  Issuer : string;
  InsecureIssuer : string;
  ClientID : string;
  ClientSecret : string;
  RedirectURI : string;
  ConfigTenantMap : gmap string string;
  SAML2LoginURL : string;
  IAMURL : string;
  IDMURL : string;
  EnableGroupClaim : bool;
  EnableRoleClaim : bool;
  RoleAsGroupClaim : bool;
  ConfigExtension : Extension;
  BasicAuthUnsupported : option bool;
  ConfigScopes : list string;
  HostedDomains : list string;
  InsecureSkipEmailVerified : bool;
  InsecureEnableGroups : bool;
  PromptType : string;
}.

Inductive caller := createCaller | refreshCaller | exchangeCaller.

Definition caller_eqb (a b : caller) : bool :=
  match a, b with
  | createCaller, createCaller
  | refreshCaller, refreshCaller
  | exchangeCaller, exchangeCaller => true
  | _, _ => false
  end.

Record tokenResponse := {
  trScope : string;
  trAccessToken : string;
  trRefreshToken : string;
  trExpiresIn : Z;
  trTokenType : string;
  trIDToken : string;
}.

(** The fields of [HSDPConnector] that hold data; [provider], [client],
    [verifier], [logger] and [cancel] are handles on the collaborators. *)
Record HSDPConnector := {
  redirectURI : string;
  introspectURI : string;
  samlLoginURL : string;
  clientID : string;
  clientSecret : string;
  oauth2Config : OAuth2Config;
  hostedDomains : list string;
  insecureSkipEmailVerified : bool;
  enableGroupClaim : bool;
  enableRoleClaim : bool;
  roleAsGroupClaim : bool;
  promptType : string;
  tenantMap : gmap string string;
}.

Definition isSAML (c : HSDPConnector) : bool :=
  (0 <? Z.of_nat (String.length (samlLoginURL c))).
Arguments isSAML : simpl never.

(** [removeElement]: the items that differ from [elementToRemove], in order. *)
Fixpoint removeElement {T : Type} `{EqDecision T} (slice : list T) (elementToRemove : T) : list T :=
  match slice with
  | [] => []
  | item :: rest =>
      if decide (item = elementToRemove)
      then removeElement rest elementToRemove
      else item :: removeElement rest elementToRemove
  end.

(** The scope list [Open] hands to the OAuth2 configuration. *)
Definition openScopes (c : Config) : list string :=
  if (0 <? Z.of_nat (length (ConfigScopes c)))
  then (["openid"] ++ removeElement (ConfigScopes c) "federated:id")%list
  else (["openid"] ++ ["profile"; "email"; "groups"])%list.

(** The connector [Open] returns once discovery has produced [endpoint] and
    the extension claims, and the IAM client was created. *)
Definition Open (c : Config) (endpoint : Endpoint) (ext : Extension) : HSDPConnector :=
  let endpoint :=
    match BasicAuthUnsupported c with
    | Some true =>
        {| AuthURL := AuthURL endpoint; TokenURL := TokenURL endpoint;
           EndpointAuthStyle := AuthStyleInParams |}
    | _ => endpoint
    end in
  let scopes := openScopes c in
  let prompt := if String.eqb (PromptType c) "" then "consent" else PromptType c in
  {| redirectURI := RedirectURI c;
     introspectURI := IntrospectionEndpoint ext;
     samlLoginURL := SAML2LoginURL c;
     clientID := ClientID c;
     clientSecret := ClientSecret c;
     oauth2Config :=
       {| cfgClientID := ClientID c; cfgClientSecret := ClientSecret c;
          cfgEndpoint := endpoint; Scopes := scopes; RedirectURL := RedirectURI c |};
     hostedDomains := HostedDomains c;
     insecureSkipEmailVerified := InsecureSkipEmailVerified c;
     enableGroupClaim := EnableGroupClaim c;
     enableRoleClaim := EnableRoleClaim c;
     roleAsGroupClaim := RoleAsGroupClaim c;
     promptType := prompt;
     tenantMap := ConfigTenantMap c |}.

(** [iam.IntrospectResponse], with the fields the connector reads and the
    validity flag. *)
Record IntrospectResponse := {
  Active : bool;
  Sub : string;
  Username : string;
  IdentityType : string;
}.

Definition IntrospectResponse_zero : IntrospectResponse :=
  {| Active := false; Sub := ""; Username := ""; IdentityType := "" |}.

(** [connector.Identity], with the fields the connector assigns. *)
Record Identity := {
  UserID : string;
  IdUsername : string;
  Email : string;
  EmailVerified : bool;
  IdConnectorData : gobytes;
}.

Definition Identity_zero : Identity :=
  {| UserID := ""; IdUsername := ""; Email := ""; EmailVerified := false;
     IdConnectorData := None |}.

(** [connector.Scopes]. *)
Record ConnScopes := {
  OfflineAccess : bool;
  Groups : bool;
}.

(** ** The HTTP request of the SAML2 bearer exchange *)

Record HTTPRequest := {
  Method : string;
  RequestURL : string;
  BasicAuth : option (string * string);
  Header : gmap string (list string);
  Body : string;
  ContentLength : Z;
}.

Record HTTPResponse := {
  Status : string;
  StatusCode : Z;
  (** what [io.ReadAll(resp.Body)] yields *)
  BodyRead : liberror + list byte;
}.

Definition http_StatusOK : Z := 200.

Definition stringOf (b : gobytes) : string :=
  match b with
  | None => ""
  | Some bs => String.string_of_list_byte bs
  end.

(** ** Errors

    One constructor for each error the connector builds; the cause of a
    wrapped library error is kept. *)
Inductive error :=
| ErrCallbackMismatch (callbackURL configured : string)
    (* expected callback URL %q did not match the URL in the config %q *)
| ErrInvalidSAMLLoginURL (cause : liberror)     (* invalid SAML2 login URL: %w *)
| OAuth2Error (err errorDescription : string)   (* &oauth2Error{...} *)
| ErrUpstream (cause : liberror)                (* err of doRequest or io.ReadAll, as it is *)
| ErrTokenStatus (status : string) (body : list byte)   (* %s: %s *)
| ErrTokenResponse (cause : liberror)           (* hsdp: failed to token response: %v *)
| ErrGetToken (cause : liberror)                (* oidc: failed to get token: %v *)
| ErrUnmarshalConnectorData (cause : liberror)  (* oidc: failed to unmarshal connector data: %v *)
| ErrRefreshToken (cause : liberror)            (* oidc: failed to get refresh token: %v *)
| ErrUserInfo (cause : liberror)                (* hsdp: error loading userinfo: %v *)
| ErrDecodeClaims (cause : liberror)            (* hsdp: failed to decode userinfo claims: %v *)
| ErrIntrospect (cause : liberror)              (* hsdp: introspect failed: %w *)
| ErrMissingEmailClaim                          (* missing "email" claim *)
| ErrUnexpectedHD (hostedDomain : string)       (* hsdp: unexpected hd claim %v *)
| ErrEncodeConnectorData (cause : liberror).    (* oidc: failed to encode connector data: %v *)

(** The [Error] method of [oauth2Error]. *)
Definition oauth2Error_Error (err errorDescription : string) : string :=
  if String.eqb errorDescription "" then err
  else err ++ ": " ++ errorDescription.

(** What a Go function returning [(A, error)] does: it returns both
    components, or it panics. *)
Inductive outcome (A : Type) :=
| Returned (value : A) (err : option error)
| Panicked.
Arguments Returned {A} value err.
Arguments Panicked {A}.

(** ** Collaborators *)

(** The types the collaborators bring with them. *)
Class Carriers := {
  (** the state of everything outside the connector *)
  World : Type;
  (** [context.Context] *)
  Ctx : Type;
  (** [iam.Profile] and its zero value *)
  Profile : Type;
  Profile_zero : Profile;
  (** [*oidc.UserInfo] *)
  UserInfo : Type;
  (** the fields of [url.URL] other than [RawQuery] *)
  URLRest : Type;
}.

Section Types.
Context {carriers : Carriers}.

Record URL := {
  Rest : URLRest;
  RawQuery : string;
}.

Definition URL_withRawQuery (u : URL) (q : string) : URL :=
  {| Rest := Rest u; RawQuery := q |}.

(** The parts of [*http.Request] the connector reads: [r.Context()] and
    [r.URL]. *)
Record Request := {
  ReqContext : Ctx;
  ReqURL : URL;
}.

(** [ConnectorData] stores information for sessions authenticated by this
    connector. *)
Record ConnectorData := {
  cdRefreshToken : gobytes;
  cdAccessToken : gobytes;
  cdAssertion : gobytes;
  cdGroups : list string;
  cdTrustedIDPOrg : string;
  cdAudienceTrustMap : gmap string string;
  cdTenantMap : gmap string string;
  cdIntrospect : IntrospectResponse;
  cdUser : Profile;
}.

(** [ConnectorData{}] *)
Definition ConnectorData_zero : ConnectorData :=
  {| cdRefreshToken := None; cdAccessToken := None; cdAssertion := None;
     cdGroups := []; cdTrustedIDPOrg := "";
     cdAudienceTrustMap := ∅; cdTenantMap := ∅;
     cdIntrospect := IntrospectResponse_zero; cdUser := Profile_zero |}.

Definition set_Assertion (v : gobytes) (cd : ConnectorData) : ConnectorData :=
  {| cdRefreshToken := cdRefreshToken cd; cdAccessToken := cdAccessToken cd;
     cdAssertion := v;
     cdGroups := cdGroups cd; cdTrustedIDPOrg := cdTrustedIDPOrg cd;
     cdAudienceTrustMap := cdAudienceTrustMap cd; cdTenantMap := cdTenantMap cd;
     cdIntrospect := cdIntrospect cd; cdUser := cdUser cd |}.

Definition set_RefreshToken (v : gobytes) (cd : ConnectorData) : ConnectorData :=
  {| cdRefreshToken := v;
     cdAccessToken := cdAccessToken cd; cdAssertion := cdAssertion cd;
     cdGroups := cdGroups cd; cdTrustedIDPOrg := cdTrustedIDPOrg cd;
     cdAudienceTrustMap := cdAudienceTrustMap cd; cdTenantMap := cdTenantMap cd;
     cdIntrospect := cdIntrospect cd; cdUser := cdUser cd |}.

Definition set_AccessToken (v : gobytes) (cd : ConnectorData) : ConnectorData :=
  {| cdRefreshToken := cdRefreshToken cd;
     cdAccessToken := v;
     cdAssertion := cdAssertion cd;
     cdGroups := cdGroups cd; cdTrustedIDPOrg := cdTrustedIDPOrg cd;
     cdAudienceTrustMap := cdAudienceTrustMap cd; cdTenantMap := cdTenantMap cd;
     cdIntrospect := cdIntrospect cd; cdUser := cdUser cd |}.

Definition set_Introspect (v : IntrospectResponse) (cd : ConnectorData) : ConnectorData :=
  {| cdRefreshToken := cdRefreshToken cd; cdAccessToken := cdAccessToken cd;
     cdAssertion := cdAssertion cd;
     cdGroups := cdGroups cd; cdTrustedIDPOrg := cdTrustedIDPOrg cd;
     cdAudienceTrustMap := cdAudienceTrustMap cd; cdTenantMap := cdTenantMap cd;
     cdIntrospect := v;
     cdUser := cdUser cd |}.

Definition set_User (v : Profile) (cd : ConnectorData) : ConnectorData :=
  {| cdRefreshToken := cdRefreshToken cd; cdAccessToken := cdAccessToken cd;
     cdAssertion := cdAssertion cd;
     cdGroups := cdGroups cd; cdTrustedIDPOrg := cdTrustedIDPOrg cd;
     cdAudienceTrustMap := cdAudienceTrustMap cd; cdTenantMap := cdTenantMap cd;
     cdIntrospect := cdIntrospect cd;
     cdUser := v |}.

(** A call that left the connector, with the answer it got. *)
Inductive Event :=
| EvExchange (ctx : Ctx) (code : string) (res : liberror + Token)
| EvDoRequest (ctx : Ctx) (req : HTTPRequest) (res : liberror + HTTPResponse)
| EvTokenSource (ctx : Ctx) (t : Token) (res : liberror + Token)
| EvUserInfo (ctx : Ctx) (t : Token) (res : liberror + UserInfo)
| EvIntrospect (ctx : Ctx) (t : Token) (res : liberror + IntrospectResponse)
| EvGetUser (accessToken uuid : string) (res : option Profile * option liberror)
| EvLogError (msg : string) (cause : liberror).

End Types.

(** The collaborators themselves. A call that reaches the network takes the
    world and returns the next one; the codecs and [net/url] are functions. *)
Class Collaborators {carriers : Carriers} := {
  (** [c.provider.UserInfo(ctx, oauth2.StaticTokenSource(token))] *)
  provider_UserInfo : Ctx → Token → World → (liberror + UserInfo) * World;
  (** [userInfo.Claims(&claims)] *)
  UserInfo_Claims : UserInfo → liberror + Claims;
  (** [c.introspect(ctx, oauth2.StaticTokenSource(token))], a method of the
      connector defined outside [hsdp.go] *)
  introspect : HSDPConnector → Ctx → Token → World → (liberror + IntrospectResponse) * World;
  (** [c.client.WithToken(accessToken).Users.LegacyGetUserByUUID(uuid)]:
      the user (possibly nil) and the error (possibly nil) *)
  LegacyGetUserByUUID : string → string → World → (option Profile * option liberror) * World;
  (** [c.oauth2Config.Exchange(ctx, code)] *)
  oauth2_Exchange : OAuth2Config → Ctx → string → World → (liberror + Token) * World;
  (** [c.oauth2Config.TokenSource(ctx, t).Token()] *)
  oauth2_TokenSource_Token : OAuth2Config → Ctx → Token → World → (liberror + Token) * World;
  (** [c.oauth2Config.AuthCodeURL(state, opts...)] *)
  oauth2_AuthCodeURL : OAuth2Config → string → list AuthCodeOption → string;
  (** [doRequest(ctx, req)], defined outside [hsdp.go] *)
  doRequest : Ctx → HTTPRequest → World → (liberror + HTTPResponse) * World;
  (** [time.Now()], in nanoseconds since the epoch *)
  clock : World → Z;
  (** [json.Unmarshal(body, &tr)] *)
  json_Unmarshal_tokenResponse : list byte → liberror + tokenResponse;
  (** [json.Unmarshal(data, &cd)] *)
  json_Unmarshal_ConnectorData : gobytes → liberror + ConnectorData;
  (** [json.Marshal(&cd)] *)
  json_Marshal_ConnectorData : ConnectorData → liberror + list byte;
  (** [url.Parse] *)
  url_Parse : string → liberror + URL;
  (** the [String] method of [url.URL] *)
  URL_String : URL → string;
  (** [url.ParseQuery]: the values read, and the first error met *)
  url_ParseQuery : string → Values * option liberror;
  (** [url.Values.Encode] *)
  Values_Encode : Values → string;
}.

(** ** The connector's operations *)

Section Connector.
Context {carriers : Carriers} {collab : Collaborators}.

(** A computation that may call collaborators: from the world before to the
    result, the world after and the calls made, oldest first. *)
Definition M (A : Type) : Type := World → A * World * list Event.

#[local] Instance M_ret : MRet M := λ A (a : A) w, (a, w, []).

#[local] Instance M_bind : MBind M := λ A B (f : A → M B) (m : M A) w,
  let '(a, w1, t1) := m w in
  let '(b, w2, t2) := f a w1 in
  (b, w2, (t1 ++ t2)%list).

#[local] Instance M_fmap : FMap M := λ A B (f : A → B) (m : M A) w,
  let '(a, w1, t1) := m w in (f a, w1, t1).

(** Calling a collaborator records the call and its answer. *)
Definition call {A : Type} (op : World → A * World) (ev : A → Event) : M A :=
  λ w, let '(a, w') := op w in (a, w', [ev a]).

(** [c.logger.Error(msg, "error", err)] *)
Definition logger_Error (msg : string) (cause : liberror) : M unit :=
  λ w, (tt, w, [EvLogError msg cause]).

Definition time_Now : M Time := λ w, (UnixNano (clock w), w, []).

(** The [Query] method of [url.URL]: the parse error is dropped. *)
Definition URL_Query (u : URL) : Values := fst (url_ParseQuery (RawQuery u)).

(** [http.NewRequest(method, url, body)] fails when [url] does not parse;
    the method given here is always a valid one. *)
Definition http_NewRequest (method url body : string) : option HTTPRequest :=
  match url_Parse url with
  | inl _ => None
  | inr _ =>
      Some {| Method := method; RequestURL := url; BasicAuth := None;
              Header := ∅; Body := body; ContentLength := 0 |}
  end.

Definition SetBasicAuth (username password : string) (req : HTTPRequest) : HTTPRequest :=
  {| Method := Method req; RequestURL := RequestURL req;
     BasicAuth := Some (username, password);
     Header := Header req; Body := Body req; ContentLength := ContentLength req |}.

Definition Header_Set (key value : string) (req : HTTPRequest) : HTTPRequest :=
  {| Method := Method req; RequestURL := RequestURL req; BasicAuth := BasicAuth req;
     Header := <[key := [value]]> (Header req);
     Body := Body req; ContentLength := ContentLength req |}.

Definition set_ContentLength (n : Z) (req : HTTPRequest) : HTTPRequest :=
  {| Method := Method req; RequestURL := RequestURL req; BasicAuth := BasicAuth req;
     Header := Header req; Body := Body req; ContentLength := n |}.

(** *** LoginURL *)

(** The options of the authorization-code URL. *)
Definition authCodeOptions (c : HSDPConnector) (s : ConnScopes) : list AuthCodeOption :=
  let opts : list AuthCodeOption := [] in
  let opts :=
    match hostedDomains c with
    | [] => opts
    | first :: others =>
        let preferredDomain := first in
        let preferredDomain :=
          match others with
          | [] => preferredDomain
          | _ :: _ => "*"
          end in
        (opts ++ [SetAuthURLParam "hd" preferredDomain])%list
    end in
  if OfflineAccess s
  then (opts ++ [AccessTypeOffline; SetAuthURLParam "prompt" (promptType c)])%list
  else opts.

Definition LoginURL (c : HSDPConnector) (s : ConnScopes) (callbackURL state : string)
  : outcome string :=
  if negb (String.eqb (redirectURI c) callbackURL)
  then Returned "" (Some (ErrCallbackMismatch callbackURL (redirectURI c)))
  else if isSAML c then
    (* SAML2 flow *)
    match url_Parse callbackURL with
    | inl _ => Panicked   (* the error is dropped and cbu is nil: cbu.Query() dereferences it *)
    | inr cbu =>
        let values := URL_Query cbu in
        let values := Values_Set "state" state values in
        let cbu := URL_withRawQuery cbu (Values_Encode values) in
        match url_Parse (samlLoginURL c) with
        | inl err => Returned "" (Some (ErrInvalidSAMLLoginURL err))
        | inr u =>
            let values := URL_Query u in
            let values := Values_Set "redirect_uri" (URL_String cbu) values in
            let u := URL_withRawQuery u (Values_Encode values) in
            Returned (URL_String u) None
        end
    end
  else
    Returned (oauth2_AuthCodeURL (oauth2Config c) state (authCodeOptions c s)) None.

(** *** createIdentity *)

(** [for _, s := range c.oauth2Config.Scopes { if s == "email" { ...; break } }] *)
Fixpoint hasEmailScope (scopes : list string) : bool :=
  match scopes with
  | [] => false
  | s :: rest => if String.eqb s "email" then true else hasEmailScope rest
  end.

(** [for _, domain := range c.hostedDomains { if hostedDomain == domain { ...; break } }] *)
Fixpoint domainFound (hostedDomain : string) (domains : list string) : bool :=
  match domains with
  | [] => false
  | domain :: rest => if String.eqb hostedDomain domain then true else domainFound hostedDomain rest
  end.

(** The email and whether one was found: the userinfo [email] claim, replaced by
    the subject for a Service identity. *)
Definition resolveEmail (claims : Claims) (introspectResponse : IntrospectResponse)
  : string * bool :=
  let '(email, found) := claimString claims "email" in
  (* For Service identities we take sub as email claim *)
  if String.eqb (IdentityType introspectResponse) "Service"
  then (Sub introspectResponse, true)
  else (email, found).

(** The hosted-domain check: the error it raises, if any. *)
Definition checkHostedDomain (c : HSDPConnector) (claims : Claims) : option error :=
  let hostedDomain := fst (claimString claims "hd") in
  if (0 <? Z.of_nat (length (hostedDomains c)))
  then
    if negb (domainFound hostedDomain (hostedDomains c))
    then Some (ErrUnexpectedHD hostedDomain)
    else None
  else None.

(** [createIdentity]: [r] is [None] for the nil request; [identity] is what
    the caller passes in and what every early return hands back. *)
Definition createIdentity (c : HSDPConnector) (ctx : Ctx) (identity : Identity)
    (token : Token) (r : option Request) (who : caller) : M (Identity * option error) :=
  let cd := ConnectorData_zero in
  let cd :=
    if caller_eqb who createCaller && isSAML c then
      match r with
      | Some r =>
          (* Save assertion *)
          let q := URL_Query (ReqURL r) in
          let assertion := Values_Get q "assertion" in
          set_Assertion (bytesOf assertion) cd
      | None => cd
      end
    else cd in
  userInfo ← call (provider_UserInfo ctx token) (EvUserInfo ctx token);
  match userInfo with
  | inl err => mret (identity, Some (ErrUserInfo err))
  | inr userInfo =>
  match UserInfo_Claims userInfo with
  | inl err => mret (identity, Some (ErrDecodeClaims err))
  | inr claims =>
  (* Introspect so we can get group assignments *)
  introspectResponse ← call (introspect c ctx token) (EvIntrospect ctx token);
  match introspectResponse with
  | inl err => mret (identity, Some (ErrIntrospect err))
  | inr introspectResponse =>
  let '(email, found) := resolveEmail claims introspectResponse in
  if negb found && hasEmailScope (Scopes (oauth2Config c))
  then mret (identity, Some ErrMissingEmailClaim)
  else
  let emailVerified := true in
  let emailVerified := if isSAML c then true else emailVerified in
  match checkHostedDomain c claims with
  | Some err => mret (identity, Some err)
  | None =>
  let cd := set_RefreshToken (bytesOf (RefreshToken token)) cd in
  let cd := set_AccessToken (bytesOf (AccessToken token)) cd in
  let cd := set_Introspect introspectResponse cd in
  (* Get user info for profile details *)
  '(user, err) ← call (LegacyGetUserByUUID (AccessToken token) (Sub introspectResponse))
                      (EvGetUser (AccessToken token) (Sub introspectResponse));
  _ ← match err with
      | Some err => logger_Error "failed to get user profile" err
      | None => mret tt
      end;
  let cd := match user with
            | Some user => set_User user cd
            | None => cd
            end in
  let identity :=
    {| UserID := Sub introspectResponse;
       IdUsername := Username introspectResponse;
       Email := email;
       EmailVerified := emailVerified;
       IdConnectorData := None |} in
  (* Attach connector data *)
  match json_Marshal_ConnectorData cd with
  | inl err => mret (identity, Some (ErrEncodeConnectorData err))
  | inr connData =>
      mret ({| UserID := UserID identity; IdUsername := IdUsername identity;
               Email := Email identity; EmailVerified := EmailVerified identity;
               IdConnectorData := Some connData |}, None)
  end
  end end end end.

(** *** HandleCallback *)

Definition samlGrantType : string := "urn:ietf:params:oauth:grant-type:saml2-bearer".

(** The form of the SAML2 bearer exchange. *)
Definition samlForm (assertion : string) : Values :=
  let form : Values := ∅ in
  let form := Values_Add "grant_type" samlGrantType form in
  Values_Add "assertion" assertion form.

Definition tokenOfResponse (tr : tokenResponse) : Token :=
  {| AccessToken := trAccessToken tr;
     TokenType := trTokenType tr;
     RefreshToken := trRefreshToken tr;
     Expiry := time_Unix (trExpiresIn tr) 0 |}.

Definition returned {A : Type} (res : A * option error) : outcome A :=
  Returned (fst res) (snd res).

(** [HandleCallback]. The named result [identity] is the zero identity on
    every path of its own. Closing the body of the token endpoint's response
    is not observed by the connector and is left out. *)
Definition HandleCallback (c : HSDPConnector) (s : ConnScopes) (r : Request)
  : M (outcome Identity) :=
  let identity := Identity_zero in
  let q := URL_Query (ReqURL r) in
  let errType := Values_Get q "error" in
  if negb (String.eqb errType "")
  then mret (Returned identity (Some (OAuth2Error errType (Values_Get q "error_description"))))
  else if isSAML c then
    (* SAML2 flow *)
    let assertion := Values_Get q "assertion" in
    let requestBody := Values_Encode (samlForm assertion) in
    match http_NewRequest "POST" (TokenURL (cfgEndpoint (oauth2Config c))) requestBody with
    | None => mret Panicked   (* the error is dropped and req is nil: req.SetBasicAuth dereferences it *)
    | Some req =>
    let req := SetBasicAuth (clientID c) (clientSecret c) req in
    let req := Header_Set "Accept" "application/json" req in
    let req := Header_Set "Content-Type" "application/x-www-form-urlencoded" req in
    let req := Header_Set "Api-Version" "2" req in
    let req := set_ContentLength (Z.of_nat (String.length requestBody)) req in
    resp ← call (doRequest (ReqContext r) req) (EvDoRequest (ReqContext r) req);
    match resp with
    | inl err => mret (Returned identity (Some (ErrUpstream err)))
    | inr resp =>
    match BodyRead resp with
    | inl err => mret (Returned identity (Some (ErrUpstream err)))
    | inr body =>
    if negb (StatusCode resp =? http_StatusOK)
    then mret (Returned identity (Some (ErrTokenStatus (Status resp) body)))
    else
    match json_Unmarshal_tokenResponse body with
    | inl err => mret (Returned identity (Some (ErrTokenResponse err)))
    | inr tr =>
        let token := tokenOfResponse tr in
        returned <$> createIdentity c (ReqContext r) identity token (Some r) createCaller
    end end end end
  else
    token ← call (oauth2_Exchange (oauth2Config c) (ReqContext r) (Values_Get q "code"))
                 (EvExchange (ReqContext r) (Values_Get q "code"));
    match token with
    | inl err => mret (Returned identity (Some (ErrGetToken err)))
    | inr token =>
        returned <$> createIdentity c (ReqContext r) identity token (Some r) createCaller
    end.

(** *** Refresh *)

(** [Refresh] is used to refresh a session with the refresh token provided by
    the IdP. *)
Definition Refresh (c : HSDPConnector) (ctx : Ctx) (s : ConnScopes) (identity : Identity)
  : M (Identity * option error) :=
  match json_Unmarshal_ConnectorData (IdConnectorData identity) with
  | inl err => mret (identity, Some (ErrUnmarshalConnectorData err))
  | inr cd =>
      now ← time_Now;
      let t := {| AccessToken := ""; TokenType := "";
                  RefreshToken := stringOf (cdRefreshToken cd);
                  Expiry := time_Add now (- time_Hour) |} in
      token ← call (oauth2_TokenSource_Token (oauth2Config c) ctx t) (EvTokenSource ctx t);
      match token with
      | inl err => mret (identity, Some (ErrRefreshToken err))
      | inr token => createIdentity c ctx identity token None refreshCaller
      end
  end.

(** *** TokenIdentity *)

Definition TokenIdentity (c : HSDPConnector) (ctx : Ctx)
    (subjectTokenType subjectToken : string) : M (Identity * option error) :=
  let identity := Identity_zero in
  let token := {| AccessToken := subjectToken; TokenType := "Bearer";
                  RefreshToken := ""; Expiry := TimeZero |} in
  createIdentity c ctx identity token None exchangeCaller.

(** ** Resolutions

    The three operations that end in [createIdentity], as one function of
    the invocation. *)
Inductive Invocation :=
| Callback (s : ConnScopes) (r : Request)
| Refreshing (ctx : Ctx) (s : ConnScopes) (identity : Identity)
| Exchanging (ctx : Ctx) (subjectTokenType subjectToken : string).

Definition resolve (c : HSDPConnector) (inv : Invocation) : M (outcome Identity) :=
  match inv with
  | Callback s r => HandleCallback c s r
  | Refreshing ctx s identity => returned <$> Refresh c ctx s identity
  | Exchanging ctx subjectTokenType subjectToken =>
      returned <$> TokenIdentity c ctx subjectTokenType subjectToken
  end.

(** The invocation mode an invocation reaches [createIdentity] with. *)
Definition modeOf (inv : Invocation) : caller :=
  match inv with
  | Callback _ _ => createCaller
  | Refreshing _ _ _ => refreshCaller
  | Exchanging _ _ _ => exchangeCaller
  end.

(** The identity an invocation starts from: the zero value, or the one
    [Refresh] was given. *)
Definition startIdentity (inv : Invocation) : Identity :=
  match inv with
  | Refreshing _ _ identity => identity
  | _ => Identity_zero
  end.

(** What a trace shows: the userinfo records and the introspection
    responses obtained. *)
Definition userInfos (tr : list Event) : list UserInfo :=
  omap (λ ev, match ev with EvUserInfo _ _ (inr u) => Some u | _ => None end) tr.

Definition introspected (tr : list Event) : list IntrospectResponse :=
  omap (λ ev, match ev with EvIntrospect _ _ (inr ir) => Some ir | _ => None end) tr.

(** The session data [createIdentity] assembles before it encodes it. *)
Definition sessionData (c : HSDPConnector) (token : Token) (r : option Request)
    (who : caller) (ir : IntrospectResponse) (user : option Profile) : ConnectorData :=
  {| cdRefreshToken := bytesOf (RefreshToken token);
     cdAccessToken := bytesOf (AccessToken token);
     cdAssertion :=
       match r with
       | Some r =>
           if caller_eqb who createCaller && isSAML c
           then bytesOf (Values_Get (URL_Query (ReqURL r)) "assertion")
           else None
       | None => None
       end;
     cdGroups := []; cdTrustedIDPOrg := "";
     cdAudienceTrustMap := ∅; cdTenantMap := ∅;
     cdIntrospect := ir;
     cdUser := default Profile_zero user |}.

(** The events of the profile lookup. *)
Definition profileEvents (token : Token) (ir : IntrospectResponse)
    (res : option Profile * option liberror) : list Event :=
  EvGetUser (AccessToken token) (Sub ir) res ::
  match snd res with
  | Some cause => [EvLogError "failed to get user profile" cause]
  | None => []
  end.

(** Where the token of a resolution comes from: the calls made to get it,
    and the request, if any, that goes with it to [createIdentity]. *)
Definition tokenFrom (c : HSDPConnector) (inv : Invocation) (pre : list Event)
    (ctx : Ctx) (token : Token) (r : option Request) : Prop :=
  match inv with
  | Callback s rq =>
      r = Some rq ∧ ctx = ReqContext rq ∧
      if isSAML c then
        ∃ req resp body tresp,
          pre = [EvDoRequest (ReqContext rq) req (inr resp)] ∧
          BodyRead resp = inr body ∧
          StatusCode resp = http_StatusOK ∧
          json_Unmarshal_tokenResponse body = inr tresp ∧
          token = tokenOfResponse tresp
      else
        pre = [EvExchange (ReqContext rq) (Values_Get (URL_Query (ReqURL rq)) "code")
                 (inr token)]
  | Refreshing ctx' s identity =>
      r = None ∧ ctx = ctx' ∧
      ∃ cd t,
        json_Unmarshal_ConnectorData (IdConnectorData identity) = inr cd ∧
        RefreshToken t = stringOf (cdRefreshToken cd) ∧
        pre = [EvTokenSource ctx t (inr token)]
  | Exchanging ctx' subjectTokenType subjectToken =>
      r = None ∧ ctx = ctx' ∧ pre = [] ∧
      token = {| AccessToken := subjectToken; TokenType := "Bearer";
                 RefreshToken := ""; Expiry := TimeZero |}
  end.

(** The errors raised before the resolver is entered. *)
Definition beforeResolver (e : error) : Prop :=
  match e with
  | OAuth2Error _ _ | ErrUpstream _ | ErrTokenStatus _ _ | ErrTokenResponse _
  | ErrGetToken _ | ErrUnmarshalConnectorData _ | ErrRefreshToken _ => True
  | _ => False
  end.

(** The paths through [createIdentity]: the step a run ends at, with what
    it read on the way. *)
Inductive Path :=
| FailedUserInfo (cause : liberror)
| FailedClaims (ui : UserInfo) (cause : liberror)
| FailedIntrospect (ui : UserInfo) (claims : Claims) (cause : liberror)
| FailedEmail (ui : UserInfo) (claims : Claims) (ir : IntrospectResponse)
| FailedHostedDomain (ui : UserInfo) (claims : Claims) (ir : IntrospectResponse)
    (err : error)
| FailedEncode (ui : UserInfo) (claims : Claims) (ir : IntrospectResponse)
    (user : option Profile) (cause : liberror)
| Resolved (ui : UserInfo) (claims : Claims) (ir : IntrospectResponse)
    (user : option Profile) (blob : list byte).

(** The identity [createIdentity] assembles. *)
Definition assembled (claims : Claims) (ir : IntrospectResponse) (data : gobytes)
  : Identity :=
  {| UserID := Sub ir;
     IdUsername := Username ir;
     Email := fst (resolveEmail claims ir);
     EmailVerified := true;
     IdConnectorData := data |}.

(** What a path returns, given the identity the run started from. *)
Definition pathResult (identity : Identity) (p : Path) : Identity * option error :=
  match p with
  | FailedUserInfo cause => (identity, Some (ErrUserInfo cause))
  | FailedClaims _ cause => (identity, Some (ErrDecodeClaims cause))
  | FailedIntrospect _ _ cause => (identity, Some (ErrIntrospect cause))
  | FailedEmail _ _ _ => (identity, Some ErrMissingEmailClaim)
  | FailedHostedDomain _ _ _ err => (identity, Some err)
  | FailedEncode _ claims ir _ cause =>
      (assembled claims ir None, Some (ErrEncodeConnectorData cause))
  | Resolved _ claims ir _ blob => (assembled claims ir (Some blob), None)
  end.

Definition pathUserInfos (p : Path) : list UserInfo :=
  match p with
  | FailedUserInfo _ => []
  | FailedClaims ui _ | FailedIntrospect ui _ _ | FailedEmail ui _ _
  | FailedHostedDomain ui _ _ _ | FailedEncode ui _ _ _ _ | Resolved ui _ _ _ _ => [ui]
  end.

Definition pathIntrospected (p : Path) : list IntrospectResponse :=
  match p with
  | FailedUserInfo _ | FailedClaims _ _ | FailedIntrospect _ _ _ => []
  | FailedEmail _ _ ir | FailedHostedDomain _ _ ir _ | FailedEncode _ _ ir _ _
  | Resolved _ _ ir _ _ => [ir]
  end.

(** The email step lets a run through: an email was found, or none is asked for. *)
Definition emailPasses (c : HSDPConnector) (claims : Claims) (ir : IntrospectResponse)
  : Prop :=
  snd (resolveEmail claims ir) = true ∨ hasEmailScope (Scopes (oauth2Config c)) = false.

(** The conditions under which a run takes a path. *)
Definition pathTaken (c : HSDPConnector) (token : Token) (r : option Request)
    (who : caller) (p : Path) : Prop :=
  match p with
  | FailedUserInfo _ => True
  | FailedClaims ui cause => UserInfo_Claims ui = inl cause
  | FailedIntrospect ui claims _ => UserInfo_Claims ui = inr claims
  | FailedEmail ui claims ir =>
      UserInfo_Claims ui = inr claims ∧
      snd (resolveEmail claims ir) = false ∧
      hasEmailScope (Scopes (oauth2Config c)) = true
  | FailedHostedDomain ui claims ir err =>
      UserInfo_Claims ui = inr claims ∧ emailPasses c claims ir ∧
      checkHostedDomain c claims = Some err
  | FailedEncode ui claims ir user cause =>
      UserInfo_Claims ui = inr claims ∧ emailPasses c claims ir ∧
      checkHostedDomain c claims = None ∧
      json_Marshal_ConnectorData (sessionData c token r who ir user) = inl cause
  | Resolved ui claims ir user blob =>
      UserInfo_Claims ui = inr claims ∧ emailPasses c claims ir ∧
      checkHostedDomain c claims = None ∧
      json_Marshal_ConnectorData (sessionData c token r who ir user) = inr blob
  end.

(** The profile lookups a trace shows: the access token and the user
    identifier of each. *)
Definition profileLookups (tr : list Event) : list (string * string) :=
  omap (λ ev, match ev with EvGetUser accessToken uuid _ => Some (accessToken, uuid) | _ => None end) tr.

(** The two ways a callback fetches a token. *)
Definition isBearerExchange (ev : Event) : bool :=
  match ev with EvDoRequest _ _ _ => true | _ => false end.

Definition isCodeExchange (ev : Event) : bool :=
  match ev with EvExchange _ _ _ => true | _ => false end.

(** The calls that fetch a token for a resolution. *)
Definition isTokenFetch (ev : Event) : bool :=
  match ev with
  | EvDoRequest _ _ _ | EvExchange _ _ _ | EvTokenSource _ _ _ => true
  | _ => false
  end.

(** The calls a path of [createIdentity] makes, in order; [perr] is the
    error of the profile lookup, if the path gets to it. *)
Definition pathTrace (ctx : Ctx) (token : Token) (perr : option liberror) (p : Path)
  : list Event :=
  match p with
  | FailedUserInfo cause => [EvUserInfo ctx token (inl cause)]
  | FailedClaims ui _ => [EvUserInfo ctx token (inr ui)]
  | FailedIntrospect ui _ cause =>
      [EvUserInfo ctx token (inr ui); EvIntrospect ctx token (inl cause)]
  | FailedEmail ui _ ir | FailedHostedDomain ui _ ir _ =>
      [EvUserInfo ctx token (inr ui); EvIntrospect ctx token (inr ir)]
  | FailedEncode ui _ ir user _ | Resolved ui _ ir user _ =>
      EvUserInfo ctx token (inr ui) :: EvIntrospect ctx token (inr ir) ::
      profileEvents token ir (user, perr)
  end.

End Connector.

(** ** Scripted collaborators

    Test doubles for the collaborators, as a Go test of the connector would
    set them up: every network call answers what the script says, whatever
    the state, and the codecs and URL functions are small stand-ins that
    agree with the libraries on the inputs used with them below. *)
Module Scripted.

(** *** Strings *)

(** [strings.Cut(s, sep)] for a one-byte separator. *)
Fixpoint cut (sep : Ascii.ascii) (s : string) : string * option string :=
  match s with
  | EmptyString => (EmptyString, None)
  | String a rest =>
      if Ascii.eqb a sep then (EmptyString, Some rest)
      else let '(before, after) := cut sep rest in (String a before, after)
  end.

(** [strings.Split(s, sep)] for a one-byte separator. *)
Fixpoint split (sep : Ascii.ascii) (s : string) : list string :=
  match s with
  | EmptyString => [EmptyString]
  | String a rest =>
      if Ascii.eqb a sep then EmptyString :: split sep rest
      else match split sep rest with
           | [] => [String a EmptyString]
           | first :: others => String a first :: others
           end
  end.

Definition contains (a : Ascii.ascii) (s : string) : bool :=
  match snd (cut a s) with Some _ => true | None => false end.

(** *** Query strings *)

Definition unreserved (a : Ascii.ascii) : bool :=
  let n := Ascii.nat_of_ascii a in
  ((48 <=? n) && (n <=? 57) || (65 <=? n) && (n <=? 90) || (97 <=? n) && (n <=? 122)
   || (n =? 45) || (n =? 95) || (n =? 46) || (n =? 126))%nat.

Definition upperhex (n : nat) : Ascii.ascii :=
  match String.get n "0123456789ABCDEF" with
  | Some a => a
  | None => "0"%char
  end.

(** [url.QueryEscape] *)
Fixpoint QueryEscape (s : string) : string :=
  match s with
  | EmptyString => EmptyString
  | String a rest =>
      if Ascii.eqb a " " then String "+" (QueryEscape rest)
      else if unreserved a then String a (QueryEscape rest)
      else
        let n := Ascii.nat_of_ascii a in
        String "%" (String (upperhex (n / 16)) (String (upperhex (n mod 16)) (QueryEscape rest)))
  end.

Definition unhex (a : Ascii.ascii) : option nat :=
  let n := Ascii.nat_of_ascii a in
  if ((48 <=? n) && (n <=? 57))%nat then Some (n - 48)%nat
  else if ((97 <=? n) && (n <=? 102))%nat then Some (n - 97 + 10)%nat
  else if ((65 <=? n) && (n <=? 70))%nat then Some (n - 65 + 10)%nat
  else None.

(** [url.QueryUnescape]; [None] for an invalid escape. *)
Fixpoint QueryUnescape (s : string) : option string :=
  match s with
  | EmptyString => Some EmptyString
  | String a rest =>
      if Ascii.eqb a "+" then String " "%char <$> QueryUnescape rest
      else if Ascii.eqb a "%" then
        match rest with
        | String h (String l rest') =>
            match unhex h, unhex l with
            | Some x, Some y =>
                String (Ascii.ascii_of_nat (16 * x + y)) <$> QueryUnescape rest'
            | _, _ => None
            end
        | _ => None
        end
      else String a <$> QueryUnescape rest
  end.

Definition firstError (a b : option liberror) : option liberror :=
  match a with Some _ => a | None => b end.

(** [url.ParseQuery]: pairs that do not decode are skipped, and the first
    error is kept. *)
Fixpoint parsePairs (pairs : list string) (m : Values) : Values * option liberror :=
  match pairs with
  | [] => (m, None)
  | kv :: rest =>
      if contains ";" kv then
        let '(m', err) := parsePairs rest m in
        (m', firstError (Some "invalid semicolon separator in query") err)
      else if String.eqb kv "" then parsePairs rest m
      else
        let '(key, value) := cut "=" kv in
        match QueryUnescape key, QueryUnescape (default "" value) with
        | Some key, Some value => parsePairs rest (Values_Add key value m)
        | _, _ =>
            let '(m', err) := parsePairs rest m in
            (m', firstError (Some "invalid URL escape") err)
        end
  end.

Definition ParseQuery (query : string) : Values * option liberror :=
  parsePairs (split "&" query) ∅.

Fixpoint insertSorted (kv : string * list string) (l : list (string * list string))
  : list (string * list string) :=
  match l with
  | [] => [kv]
  | kv' :: rest =>
      if String.leb (fst kv) (fst kv') then kv :: l else kv' :: insertSorted kv rest
  end.

Definition sortedPairs (v : Values) : list (string * list string) :=
  foldr insertSorted [] (map_to_list v).

(** [url.Values.Encode]: [key=value] pairs, escaped, sorted by key. *)
Definition Encode (v : Values) : string :=
  String.concat "&"
    (mbind (λ kv : string * list string,
              (λ value, QueryEscape (fst kv) ++ "=" ++ QueryEscape value) <$> snd kv)
           (sortedPairs v)).

(** *** URLs

    A URL is kept as the text before its first [?] and the raw query after
    it. As in [net/url], a text that starts with a colon has no scheme and
    is refused. *)
Definition Parse (rawURL : string) : liberror + (string * string) :=
  match rawURL with
  | String ":" _ => inl "missing protocol scheme"
  | _ => let '(rest, query) := cut "?" rawURL in inr (rest, default "" query)
  end.

(** *** The script *)

Record Script := {
  (** the userinfo call, and what decoding its claims gives *)
  userinfo : liberror + (liberror + Claims);
  introspection : liberror + IntrospectResponse;
  (** the profile lookup *)
  profile : option string * option liberror;
  (** the authorization-code exchange *)
  codeExchange : liberror + Token;
  (** the redemption of a refresh token *)
  redemption : liberror + Token;
  (** the token endpoint's answer to the SAML2 bearer exchange *)
  tokenEndpoint : liberror + HTTPResponse;
  now : Z;
}.

Definition carriers : Carriers :=
  {| World := Script;
     Ctx := unit;
     Profile := string;
     Profile_zero := "";
     UserInfo := liberror + Claims;
     URLRest := string |}.

(** Decoding a token response: the bodies the double knows, by their text. *)
Fixpoint lookupBody (table : list (string * tokenResponse)) (body : list byte)
  : liberror + tokenResponse :=
  match table with
  | [] => inl "invalid character"
  | (text, tr) :: rest =>
      if String.eqb (String.string_of_list_byte body) text then inr tr
      else lookupBody rest body
  end.

Definition newline : Ascii.ascii := Ascii.ascii_of_nat 10.

(** The session blob, one field per line. *)
Definition encodeConnectorData (cd : @ConnectorData carriers) : liberror + list byte :=
  inr (String.list_byte_of_string
         (String.concat (String newline EmptyString)
            [stringOf (cdRefreshToken cd); stringOf (cdAccessToken cd);
             stringOf (cdAssertion cd);
             Sub (cdIntrospect cd); Username (cdIntrospect cd);
             IdentityType (cdIntrospect cd); (cdUser cd : string)])).

Definition decodeConnectorData (data : gobytes) : liberror + @ConnectorData carriers :=
  match data with
  | None => inl "unexpected end of JSON input"
  | Some bs =>
      match split newline (String.string_of_list_byte bs) with
      | [refresh; access; assertion; sub; username; identityType; user] =>
          inr {| cdRefreshToken := bytesOf refresh; cdAccessToken := bytesOf access;
                 cdAssertion := bytesOf assertion;
                 cdGroups := []; cdTrustedIDPOrg := "";
                 cdAudienceTrustMap := ∅; cdTenantMap := ∅;
                 cdIntrospect := {| Active := false; Sub := sub; Username := username;
                                    IdentityType := identityType |};
                 cdUser := (user : @Profile carriers) |}
      | _ => inl "invalid character"
      end
  end.

(** [AuthCodeURL]: the authorization endpoint with the request as its query. *)
Definition AuthCodeURL (cfg : OAuth2Config) (state : string) (opts : list AuthCodeOption)
  : string :=
  let v : Values := {[ "response_type" := ["code"]; "client_id" := [cfgClientID cfg] ]} in
  let v := if String.eqb (RedirectURL cfg) "" then v
           else Values_Set "redirect_uri" (RedirectURL cfg) v in
  let v := match Scopes cfg with
           | [] => v
           | _ :: _ => Values_Set "scope" (String.concat " " (Scopes cfg)) v
           end in
  let v := if String.eqb state "" then v else Values_Set "state" state v in
  let v := foldl (λ v (opt : AuthCodeOption), Values_Set (fst opt) (snd opt) v) v opts in
  AuthURL (cfgEndpoint cfg)
    ++ (if contains "?" (AuthURL (cfgEndpoint cfg)) then "&" else "?") ++ Encode v.

Definition scriptedURL (parsed : string * string) : @URL carriers :=
  @Build_URL carriers (fst parsed) (snd parsed).

Definition collaborators (bodies : list (string * tokenResponse))
  : @Collaborators carriers :=
  @Build_Collaborators carriers
    (* provider_UserInfo *) (λ _ _ (w : Script), (userinfo w, w))
    (* UserInfo_Claims *) (λ u, u)
    (* introspect *) (λ _ _ _ (w : Script), (introspection w, w))
    (* LegacyGetUserByUUID *) (λ _ _ (w : Script), (profile w, w))
    (* oauth2_Exchange *) (λ _ _ _ (w : Script), (codeExchange w, w))
    (* oauth2_TokenSource_Token *)
    (λ _ _ t (w : Script),
       (if String.eqb (RefreshToken t) ""
        then inl "oauth2: token expired and refresh token is not set"
        else redemption w, w))
    (* oauth2_AuthCodeURL *) AuthCodeURL
    (* doRequest *) (λ _ _ (w : Script), (tokenEndpoint w, w))
    (* clock *) now
    (* json_Unmarshal_tokenResponse *) (lookupBody bodies)
    (* json_Unmarshal_ConnectorData *) decodeConnectorData
    (* json_Marshal_ConnectorData *) encodeConnectorData
    (* url_Parse *)
    (λ rawURL, match Parse rawURL with
               | inl err => inl err
               | inr parsed => inr (scriptedURL parsed)
               end)
    (* URL_String *)
    (λ u : @URL carriers, @Rest carriers u ++ (if String.eqb (RawQuery u) "" then "" else "?" ++ RawQuery u))
    (* url_ParseQuery *) ParseQuery
    (* Values_Encode *) Encode.

(** *** The scenarios *)

Definition quoted (s : string) : string :=
  String (Ascii.ascii_of_nat 34) s ++ String (Ascii.ascii_of_nat 34) EmptyString.

(** The body the token endpoint answers the bearer exchange with. *)
Definition tokenBody : string :=
  "{" ++ quoted "access_token" ++ ":" ++ quoted "a1" ++ ","
      ++ quoted "refresh_token" ++ ":" ++ quoted "r1" ++ ","
      ++ quoted "expires_in" ++ ":0,"
      ++ quoted "token_type" ++ ":" ++ quoted "Bearer" ++ "}".

Definition tokenDecoded : tokenResponse :=
  {| trScope := ""; trAccessToken := "a1"; trRefreshToken := "r1";
     trExpiresIn := 0; trTokenType := "Bearer"; trIDToken := "" |}.

Definition env : @Collaborators carriers := collaborators [(tokenBody, tokenDecoded)].

Definition callbackURL : string := "https://dex.example.com/callback".

Definition configured (saml : string) (domains : list string) : Config :=
  {| Issuer := "https://iam.example.com/authorize";
     InsecureIssuer := "";
     ClientID := "dex";
     ClientSecret := "s3cret";
     RedirectURI := callbackURL;
     ConfigTenantMap := ∅;
     SAML2LoginURL := saml;
     IAMURL := "https://iam.example.com";
     IDMURL := "https://idm.example.com";
     EnableGroupClaim := false;
     EnableRoleClaim := false;
     RoleAsGroupClaim := false;
     ConfigExtension := {| IntrospectionEndpoint := "" |};
     BasicAuthUnsupported := None;
     ConfigScopes := [];
     HostedDomains := domains;
     InsecureSkipEmailVerified := false;
     InsecureEnableGroups := false;
     PromptType := "" |}.

Definition discovered : Endpoint :=
  {| AuthURL := "https://iam.example.com/authorize/oauth2/authorize";
     TokenURL := "https://iam.example.com/authorize/oauth2/token";
     EndpointAuthStyle := AuthStyleAutoDetect |}.

(** The connector [Open] builds from a configuration. *)
Definition connector (saml : string) (domains : list string) : HSDPConnector :=
  Open (configured saml domains) discovered
       {| IntrospectionEndpoint := "https://iam.example.com/authorize/oauth2/introspect" |}.

Definition samlLogin : string := "https://iam.example.com/authorize/saml2/login".

Definition scopes : ConnScopes := {| OfflineAccess := true; Groups := false |}.

Definition request (query : string) : @Request carriers :=
  @Build_Request carriers tt (@Build_URL carriers callbackURL query).

Definition introspectionOf (identityType : string) : IntrospectResponse :=
  {| Active := true; Sub := "u-123"; Username := "ann"; IdentityType := identityType |}.

Definition refreshed : Token :=
  {| AccessToken := "a2"; TokenType := "Bearer"; RefreshToken := "r2"; Expiry := TimeZero |}.

(** A world that answers every call: the userinfo claims and the identity
    type are the scenario's. *)
Definition world (claims : Claims) (identityType : string) : Script :=
  {| userinfo := inr (inr claims);
     introspection := inr (introspectionOf identityType);
     profile := (Some "Ann", None);
     codeExchange := inr refreshed;
     redemption := inr refreshed;
     tokenEndpoint :=
       inr {| Status := "200 OK"; StatusCode := 200;
              BodyRead := inr (String.list_byte_of_string tokenBody) |};
     now := 1700000000000000000 |}.

Definition annClaims (hd : string) : Claims :=
  {[ "sub" := JString "userinfo-sub";
     "email" := JString "ann@acme.com";
     "hd" := JString hd ]}.

Definition noEmailClaims : Claims :=
  {[ "sub" := JString "userinfo-sub" ]}.

Definition numericEmailClaims : Claims :=
  {[ "sub" := JString "userinfo-sub"; "email" := JNumber "42" ]}.

(** An identity of an earlier session whose blob was lost. *)
Definition staleIdentity : Identity :=
  {| UserID := "u-123"; IdUsername := "ann"; Email := "ann@acme.com";
     EmailVerified := true; IdConnectorData := None |}.

(** *** Worlds in which a call fails *)

Definition withUserinfo (answer : liberror + (liberror + Claims)) (w : Script) : Script :=
  {| userinfo := answer; introspection := introspection w; profile := profile w;
     codeExchange := codeExchange w; redemption := redemption w;
     tokenEndpoint := tokenEndpoint w; now := now w |}.

Definition withIntrospection (answer : liberror + IntrospectResponse) (w : Script) : Script :=
  {| userinfo := userinfo w; introspection := answer; profile := profile w;
     codeExchange := codeExchange w; redemption := redemption w;
     tokenEndpoint := tokenEndpoint w; now := now w |}.

Definition withProfile (answer : option string * option liberror) (w : Script) : Script :=
  {| userinfo := userinfo w; introspection := introspection w; profile := answer;
     codeExchange := codeExchange w; redemption := redemption w;
     tokenEndpoint := tokenEndpoint w; now := now w |}.

Definition withCodeExchange (answer : liberror + Token) (w : Script) : Script :=
  {| userinfo := userinfo w; introspection := introspection w; profile := profile w;
     codeExchange := answer; redemption := redemption w;
     tokenEndpoint := tokenEndpoint w; now := now w |}.

Definition withRedemption (answer : liberror + Token) (w : Script) : Script :=
  {| userinfo := userinfo w; introspection := introspection w; profile := profile w;
     codeExchange := codeExchange w; redemption := answer;
     tokenEndpoint := tokenEndpoint w; now := now w |}.

Definition withTokenEndpoint (answer : liberror + HTTPResponse) (w : Script) : Script :=
  {| userinfo := userinfo w; introspection := introspection w; profile := profile w;
     codeExchange := codeExchange w; redemption := redemption w;
     tokenEndpoint := answer; now := now w |}.

(** The world of the user Ann of [acme.com]. *)
Definition annWorld : Script := world (annClaims "acme.com") "User".

(** The token endpoint refuses the assertion. *)
Definition refusal : HTTPResponse :=
  {| Status := "401 Unauthorized"; StatusCode := 401;
     BodyRead := inr (String.list_byte_of_string "invalid assertion") |}.

(** The token of a token exchange for the subject token [a1]. *)
Definition subjectBearer : Token :=
  {| AccessToken := "a1"; TokenType := "Bearer"; RefreshToken := ""; Expiry := TimeZero |}.

(** The session blob of a session whose refresh token is [r1]. *)
Definition storedBlob : list byte :=
  String.list_byte_of_string
    (String.concat (String newline EmptyString)
       ["r1"; "a1"; ""; "u-123"; "ann"; "User"; "Ann"]).

Definition sessionIdentity (userID : string) : Identity :=
  {| UserID := userID; IdUsername := "ann"; Email := "ann@acme.com";
     EmailVerified := true; IdConnectorData := Some storedBlob |}.

(** The token [Refresh] presents for that session. *)
Definition presented : Token :=
  {| AccessToken := ""; TokenType := ""; RefreshToken := "r1";
     Expiry := UnixNano (1700000000000000000 - time_Hour) |}.

(** Userinfo claims without a hosted domain. *)
Definition noDomainClaims : Claims :=
  {[ "sub" := JString "userinfo-sub"; "email" := JString "ann@acme.com" ]}.

(** A session blob, from its fields. *)
Definition blobOf (fields : list string) : list byte :=
  String.list_byte_of_string (String.concat (String newline EmptyString) fields).

(** The identity of Ann, with an email and a session blob. *)
Definition annIdentity (email : string) (fields : list string) : Identity :=
  {| UserID := "u-123"; IdUsername := "ann"; Email := email; EmailVerified := true;
     IdConnectorData := Some (blobOf fields) |}.

Definition tokenType : string := "urn:ietf:params:oauth:token-type:access_token".

(** The token decoded from the answer of the bearer exchange. *)
Definition exchanged : Token :=
  {| AccessToken := "a1"; TokenType := "Bearer"; RefreshToken := "r1";
     Expiry := UnixNano 0 |}.

(** The request of the bearer exchange for the assertion [XYZ]. *)
Definition bearerRequest : HTTPRequest :=
  {| Method := "POST";
     RequestURL := "https://iam.example.com/authorize/oauth2/token";
     BasicAuth := Some ("dex", "s3cret");
     Header := {[ "Accept" := ["application/json"];
                  "Content-Type" := ["application/x-www-form-urlencoded"];
                  "Api-Version" := ["2"] ]};
     Body := "assertion=XYZ&grant_type=urn%3Aietf%3Aparams%3Aoauth%3Agrant-type%3Asaml2-bearer";
     ContentLength := 80 |}.

(** *** The calls of the scenarios *)

Definition userinfoCall (token : Token) (claims : Claims) : @Event carriers :=
  @EvUserInfo carriers tt token (inr (inr claims)).

Definition introspectCall (token : Token) (identityType : string) : @Event carriers :=
  @EvIntrospect carriers tt token (inr (introspectionOf identityType)).

Definition profileCall (token : Token) (answer : option string * option string)
  : @Event carriers :=
  @EvGetUser carriers (AccessToken token) "u-123" answer.

(** The calls of a resolution that succeeds for Ann. *)
Definition annCalls (token : Token) (hd : string) : list (@Event carriers) :=
  [userinfoCall token (annClaims hd); introspectCall token "User";
   profileCall token (Some "Ann", None)].

End Scripted.

(** * Properties *)

Section Properties.
Context {carriers : Carriers} {collab : Collaborators}.

(** ** Running a resolution *)

(** Unfold the monad. *)
Ltac unfold_M :=
  unfold mbind, M_bind, mret, M_ret, fmap, M_fmap, call, logger_Error, time_Now in *.

(** The steps of [createIdentity], one after the other. *)
Lemma createIdentity_steps c ctx identity token r who w :
  createIdentity c ctx identity token r who w =
  let '(ui, w1) := provider_UserInfo ctx token w in
  match ui with
  | inl err => ((identity, Some (ErrUserInfo err)), w1, [EvUserInfo ctx token ui])
  | inr userInfo =>
  match UserInfo_Claims userInfo with
  | inl err => ((identity, Some (ErrDecodeClaims err)), w1, [EvUserInfo ctx token ui])
  | inr claims =>
  let '(ir, w2) := introspect c ctx token w1 in
  let tr2 := [EvUserInfo ctx token ui; EvIntrospect ctx token ir] in
  match ir with
  | inl err => ((identity, Some (ErrIntrospect err)), w2, tr2)
  | inr introspectResponse =>
  if negb (snd (resolveEmail claims introspectResponse))
     && hasEmailScope (Scopes (oauth2Config c))
  then ((identity, Some ErrMissingEmailClaim), w2, tr2)
  else
  match checkHostedDomain c claims with
  | Some err => ((identity, Some err), w2, tr2)
  | None =>
  let '(res, w3) := LegacyGetUserByUUID (AccessToken token) (Sub introspectResponse) w2 in
  let tr3 := (tr2 ++ profileEvents token introspectResponse res)%list in
  let assembled :=
    {| UserID := Sub introspectResponse;
       IdUsername := Username introspectResponse;
       Email := fst (resolveEmail claims introspectResponse);
       EmailVerified := true;
       IdConnectorData := None |} in
  match json_Marshal_ConnectorData (sessionData c token r who introspectResponse (fst res)) with
  | inl err => ((assembled, Some (ErrEncodeConnectorData err)), w3, tr3)
  | inr connData =>
      (({| UserID := Sub introspectResponse;
           IdUsername := Username introspectResponse;
           Email := fst (resolveEmail claims introspectResponse);
           EmailVerified := true;
           IdConnectorData := Some connData |}, None), w3, tr3)
  end end end end end.
Proof.
  unfold createIdentity. unfold_M.
  destruct (provider_UserInfo ctx token w) as [[err|userInfo] w1]; simpl; [reflexivity|].
  destruct (UserInfo_Claims userInfo) as [err|claims]; simpl; [reflexivity|].
  destruct (introspect c ctx token w1) as [[err|ir] w2]; simpl; [reflexivity|].
  destruct (resolveEmail claims ir) as [email found]; simpl.
  destruct (negb found && hasEmailScope (Scopes (oauth2Config c))); simpl; [reflexivity|].
  destruct (checkHostedDomain c claims) as [err|]; simpl; [reflexivity|].
  destruct (LegacyGetUserByUUID (AccessToken token) (Sub ir) w2) as [[user perr] w3]; simpl.
  assert (Hsaml : (if isSAML c then true else true) = true) by (by destruct (isSAML c)).
  rewrite Hsaml. clear Hsaml.
  unfold sessionData.
  destruct user, r, (caller_eqb who createCaller && isSAML c), perr;
    cbv [set_User set_Introspect set_AccessToken set_RefreshToken
         set_Assertion ConnectorData_zero default
         cdRefreshToken cdAccessToken cdAssertion cdGroups cdTrustedIDPOrg
         cdAudienceTrustMap cdTenantMap cdIntrospect cdUser];
    simpl;
    match goal with
    | |- context [json_Marshal_ConnectorData ?cd] =>
        destruct (json_Marshal_ConnectorData cd)
    end; reflexivity.
Qed.

(** The calls that fetch a token show no userinfo and no introspection. *)
Lemma tokenFrom_quiet c inv pre ctx token r :
  tokenFrom c inv pre ctx token r → userInfos pre = [] ∧ introspected pre = [].
Proof.
  destruct inv as [s rq|ctx' s identity|ctx' ty tok]; simpl.
  - intros (_ & _ & Hpre). destruct (isSAML c).
    + destruct Hpre as (req & resp & body & tresp & -> & _). split; reflexivity.
    + subst pre. split; reflexivity.
  - intros (_ & _ & cd & t & _ & _ & ->). split; reflexivity.
  - intros (_ & _ & -> & _). split; reflexivity.
Qed.

(** Every resolution panics, fails before the resolver, or is a run of
    [createIdentity] on a token fetched for the invocation. *)
Lemma resolve_cases c inv w out w' tr :
  resolve c inv w = (out, w', tr) →
  (out = Panicked ∧ tr = []) ∨
  (∃ e, out = Returned (startIdentity inv) (Some e) ∧ beforeResolver e ∧
        userInfos tr = [] ∧ introspected tr = []) ∨
  (∃ pre ctx token r w1 res tr2,
      tokenFrom c inv pre ctx token r ∧
      createIdentity c ctx (startIdentity inv) token r (modeOf inv) w1 = (res, w', tr2) ∧
      out = returned res ∧ tr = (pre ++ tr2)%list).
Proof.
  destruct inv as [s rq|ctx s identity|ctx ty tok]; simpl.
  - unfold HandleCallback. unfold_M.
    destruct (negb (Values_Get (URL_Query (ReqURL rq)) "error" =? "")%string).
    { intros [= <- <- <-]. right; left. eexists. repeat split. }
    destruct (isSAML c) eqn:Esaml.
    + destruct (http_NewRequest _ _ _) as [req|].
      2:{ intros [= <- <- <-]. left. split; reflexivity. }
      match goal with |- context [doRequest ?x ?y w] =>
        destruct (doRequest x y w) as [[err|resp] w1] eqn:Ereq end; simpl.
      { intros [= <- <- <-]. right; left. eexists. repeat split. }
      destruct (BodyRead resp) as [err|body] eqn:Ebody; simpl.
      { intros [= <- <- <-]. right; left. eexists. repeat split. }
      destruct (StatusCode resp =? http_StatusOK) eqn:Ecode; simpl.
      2:{ intros [= <- <- <-]. right; left. eexists. repeat split. }
      destruct (json_Unmarshal_tokenResponse body) as [err|tresp] eqn:Ejson; simpl.
      { intros [= <- <- <-]. right; left. eexists. repeat split. }
      destruct (createIdentity c (ReqContext rq) Identity_zero (tokenOfResponse tresp)
                  (Some rq) createCaller w1) as [[res w2] tr2] eqn:Ecreate.
      intros [= <- <- <-]. right; right.
      eexists [_], _, _, _, _, _, _. split; [|split; [exact Ecreate|split; reflexivity]].
      unfold tokenFrom. split; [reflexivity|]. split; [reflexivity|].
      eexists _, _, _, _. split; [reflexivity|]. split; [exact Ebody|].
      split; [by apply Z.eqb_eq|]. split; [exact Ejson|reflexivity].
    + destruct (oauth2_Exchange _ _ _ w) as [[err|token] w1] eqn:Eex; simpl.
      { intros [= <- <- <-]. right; left. eexists. repeat split. }
      destruct (createIdentity c (ReqContext rq) Identity_zero token
                  (Some rq) createCaller w1) as [[res w2] tr2] eqn:Ecreate.
      intros [= <- <- <-]. right; right.
      eexists [_], _, _, _, _, _, _. split; [|split; [exact Ecreate|split; reflexivity]].
      unfold tokenFrom. repeat split.
  - unfold Refresh. unfold_M.
    destruct (json_Unmarshal_ConnectorData (IdConnectorData identity)) as [err|cd] eqn:Ecd; simpl.
    { intros [= <- <- <-]. right; left. eexists. repeat split. }
    match goal with |- context [oauth2_TokenSource_Token ?x ?y ?t w] =>
      destruct (oauth2_TokenSource_Token x y t w) as [[err|token] w1] eqn:Ets end; simpl.
    { intros [= <- <- <-]. right; left. eexists. repeat split. }
    destruct (createIdentity c ctx identity token None refreshCaller w1)
      as [[res w2] tr2] eqn:Ecreate.
    intros [= <- <- <-]. right; right.
    eexists [_], _, _, _, _, _, _. split; [|split; [exact Ecreate|split; reflexivity]].
    simpl. split; [reflexivity|]. split; [reflexivity|].
    eexists _, _. split; [reflexivity|]. split; [|reflexivity]. reflexivity.
  - unfold TokenIdentity. unfold_M.
    match goal with |- context [createIdentity c ctx ?i ?t None exchangeCaller w] =>
      destruct (createIdentity c ctx i t None exchangeCaller w) as [[res w2] tr2] eqn:Ecreate end.
    intros [= <- <- <-]. right; right.
    eexists [], _, _, _, _, _, _. split; [|split; [exact Ecreate|split; reflexivity]].
    simpl. repeat split.
Qed.

(** Split a run of [createIdentity] into its paths. *)
Ltac createIdentity_paths H :=
  rewrite createIdentity_steps in H;
  repeat match type of H with
         | context [let '(_, _) := ?x in _] =>
             let E := fresh "E" in destruct x as [? ?] eqn:E; simpl in H
         | context [match ?x with _ => _ end] =>
             let E := fresh "E" in destruct x eqn:E; simpl in H
         end.

Ltac singleton_members :=
  repeat match goal with
         | H : _ ∈ [] |- _ => by apply not_elem_of_nil in H
         | H : _ ∈ [_] |- _ => apply list_elem_of_singleton in H; subst
         end.

Lemma userInfos_profileEvents token ir res :
  userInfos (profileEvents token ir res) = [].
Proof. unfold userInfos, profileEvents. destruct (snd res); reflexivity. Qed.

Lemma introspected_profileEvents token ir res :
  introspected (profileEvents token ir res) = [].
Proof. unfold introspected, profileEvents. destruct (snd res); reflexivity. Qed.

Lemma userInfos_cons ev tr :
  userInfos (ev :: tr) =
  match ev with
  | EvUserInfo _ _ (inr u) => u :: userInfos tr
  | _ => userInfos tr
  end.
Proof. destruct ev as [| | |? ? [|]| | |]; reflexivity. Qed.

Lemma introspected_cons ev tr :
  introspected (ev :: tr) =
  match ev with
  | EvIntrospect _ _ (inr ir) => ir :: introspected tr
  | _ => introspected tr
  end.
Proof. destruct ev as [| | | |? ? [|]| |]; reflexivity. Qed.

Ltac read_trace :=
  repeat (rewrite ?userInfos_cons, ?introspected_cons,
            ?userInfos_profileEvents, ?introspected_profileEvents in *;
          change (userInfos []) with (@nil UserInfo) in *;
          change (introspected []) with (@nil IntrospectResponse) in *).

(** A Service identity always has an email: its subject. *)
Lemma resolveEmail_Service claims ir :
  IdentityType ir = "Service" → resolveEmail claims ir = (Sub ir, true).
Proof.
  intros Hty. unfold resolveEmail. rewrite Hty.
  destruct (claimString claims "email"). reflexivity.
Qed.

(** Any other identity has the email the userinfo claims give, if any. *)
Lemma resolveEmail_other claims ir :
  IdentityType ir ≠ "Service" → resolveEmail claims ir = claimString claims "email".
Proof.
  intros Hty. unfold resolveEmail.
  destruct (claimString claims "email") as [email found].
  destruct (String.eqb_spec (IdentityType ir) "Service"); [contradiction|reflexivity].
Qed.

(** Every run of [createIdentity] takes one of the paths. *)
Lemma createIdentity_path c ctx identity token r who w res w' tr :
  createIdentity c ctx identity token r who w = (res, w', tr) →
  ∃ p, pathTaken c token r who p ∧ res = pathResult identity p ∧
       userInfos tr = pathUserInfos p ∧ introspected tr = pathIntrospected p.
Proof.
  intros Hrun. createIdentity_paths Hrun; injection Hrun as <- <- <-; read_trace.
  - eexists (FailedUserInfo _). by repeat split.
  - eexists (FailedClaims _ _). by repeat split.
  - eexists (FailedIntrospect _ _ _). by repeat split.
  - eexists (FailedEmail _ _ _). simpl.
    match goal with E : negb ?a && ?b = true |- _ =>
      apply andb_true_iff in E as [Ha Hb]; apply negb_true_iff in Ha end.
    by repeat split.
  - eexists (FailedHostedDomain _ _ _ _). simpl.
    match goal with E : negb ?a && ?b = false |- _ =>
      apply andb_false_iff in E as [Ha|Hb]; [apply negb_false_iff in Ha|] end.
    all: repeat split; try eassumption; unfold emailPasses; auto.
  - eexists (FailedEncode _ _ _ _ _). simpl.
    match goal with E : negb ?a && ?b = false |- _ =>
      apply andb_false_iff in E as [Ha|Hb]; [apply negb_false_iff in Ha|] end.
    all: repeat split; try eassumption; unfold emailPasses; auto.
  - eexists (Resolved _ _ _ _ _). simpl.
    match goal with E : negb ?a && ?b = false |- _ =>
      apply andb_false_iff in E as [Ha|Hb]; [apply negb_false_iff in Ha|] end.
    all: repeat split; try eassumption; unfold emailPasses; auto.
Qed.

Lemma userInfos_app tr1 tr2 : userInfos (tr1 ++ tr2) = (userInfos tr1 ++ userInfos tr2)%list.
Proof.
  induction tr1 as [|ev tr1 IH]; [reflexivity|].
  change ((ev :: tr1) ++ tr2)%list with (ev :: (tr1 ++ tr2))%list.
  rewrite !userInfos_cons, IH. by repeat case_match.
Qed.

Lemma introspected_app tr1 tr2 :
  introspected (tr1 ++ tr2) = (introspected tr1 ++ introspected tr2)%list.
Proof.
  induction tr1 as [|ev tr1 IH]; [reflexivity|].
  change ((ev :: tr1) ++ tr2)%list with (ev :: (tr1 ++ tr2))%list.
  rewrite !introspected_cons, IH. by repeat case_match.
Qed.

(** Every resolution panics, fails before the resolver, or takes one of
    the resolver's paths on a token fetched for the invocation. *)
Lemma resolve_path c inv w out w' tr :
  resolve c inv w = (out, w', tr) →
  (out = Panicked ∧ tr = []) ∨
  (∃ e, out = Returned (startIdentity inv) (Some e) ∧ beforeResolver e ∧
        userInfos tr = [] ∧ introspected tr = []) ∨
  (∃ pre ctx token r p,
      tokenFrom c inv pre ctx token r ∧ (∃ tr2, tr = (pre ++ tr2)%list) ∧
      pathTaken c token r (modeOf inv) p ∧
      out = returned (pathResult (startIdentity inv) p) ∧
      userInfos tr = pathUserInfos p ∧ introspected tr = pathIntrospected p).
Proof.
  intros Hrun. apply resolve_cases in Hrun as [Hpanic|[Hearly|Hlate]]; [by left|by right; left|].
  right; right.
  destruct Hlate as (pre & ctx & token & r & w1 & res & tr2 & Hfrom & Hrun & -> & ->).
  apply createIdentity_path in Hrun as (p & Htaken & -> & Hui & Hir).
  destruct (tokenFrom_quiet _ _ _ _ _ _ Hfrom) as [Hqui Hqir].
  exists pre, ctx, token, r, p.
  rewrite userInfos_app, introspected_app, Hqui, Hqir.
  repeat split; eauto.
Qed.

Lemma hasEmailScope_true scopes : hasEmailScope scopes = true ↔ "email" ∈ scopes.
Proof.
  induction scopes as [|s rest IH]; simpl.
  - split; [discriminate|]. intros Hin. by apply not_elem_of_nil in Hin.
  - rewrite elem_of_cons. destruct (String.eqb_spec s "email") as [->|Hne].
    + split; auto.
    + rewrite IH. split; [auto|]. intros [Heq|Hin]; [congruence|done].
Qed.

Lemma domainFound_true hostedDomain domains :
  domainFound hostedDomain domains = true ↔ hostedDomain ∈ domains.
Proof.
  induction domains as [|domain rest IH]; simpl.
  - split; [discriminate|]. intros Hin. by apply not_elem_of_nil in Hin.
  - rewrite elem_of_cons. destruct (String.eqb_spec hostedDomain domain) as [->|Hne].
    + split; auto.
    + rewrite IH. split; [auto|]. intros [Heq|Hin]; [congruence|done].
Qed.

(** The verdict of the hosted-domain check under a non-empty allow-list. *)
Lemma checkHostedDomain_spec c claims :
  hostedDomains c ≠ [] →
  checkHostedDomain c claims =
  if decide (fst (claimString claims "hd") ∈ hostedDomains c)
  then None else Some (ErrUnexpectedHD (fst (claimString claims "hd"))).
Proof.
  intros Hne. unfold checkHostedDomain.
  destruct (hostedDomains c) as [|d ds] eqn:Hds; [done|].
  change (0 <? Z.of_nat (length (d :: ds))) with true. cbv iota.
  destruct (domainFound _ (d :: ds)) eqn:Hfound; simpl.
  - apply domainFound_true in Hfound. by rewrite decide_True.
  - rewrite decide_False; [done|]. intros Hin. apply domainFound_true in Hin. congruence.
Qed.

Lemma claimString_absent (claims : Claims) key :
  claims !! key = None → claimString claims key = ("", false).
Proof. intros Hnone. unfold claimString. by rewrite Hnone. Qed.

Lemma claimString_not_string (claims : Claims) key v :
  claims !! key = Some v → (∀ s, v ≠ JString s) → claimString claims key = ("", false).
Proof.
  intros Hsome Hns. unfold claimString. rewrite Hsome.
  destruct v; try reflexivity. by destruct (Hns s).
Qed.

(** [removeElement] keeps, in order, what is not the element to remove. *)
Lemma removeElement_filter {T : Type} `{EqDecision T} (slice : list T) (y : T) :
  removeElement slice y = filter (λ item, item ≠ y) slice.
Proof.
  induction slice as [|item rest IH]; [reflexivity|]. simpl.
  rewrite filter_cons. destruct (decide (item = y)) as [->|Hne].
  - rewrite decide_False by (intros Hn; by apply Hn). exact IH.
  - rewrite decide_True by done. by rewrite IH.
Qed.

(** [Open] keeps a configured [email] scope, and asks for it by default. *)
Lemma Open_email_scope cfg endpoint ext :
  "email" ∈ ConfigScopes cfg ∨ ConfigScopes cfg = [] →
  "email" ∈ Scopes (oauth2Config (Open cfg endpoint ext)).
Proof.
  unfold Open, openScopes. simpl. intros [Hin|Hnil].
  - destruct (ConfigScopes cfg) as [|s0 rest] eqn:Hscopes;
      [by apply not_elem_of_nil in Hin|].
    change (0 <? Z.of_nat (length (s0 :: rest))) with true. cbv iota.
    apply list_elem_of_further. rewrite removeElement_filter.
    apply list_elem_of_filter. split; [discriminate|exact Hin].
  - rewrite Hnil. simpl. set_solver.
Qed.

(** A resolution that read claims without a usable email, for an identity
    that is not a Service, under the email scope, stops with the
    missing-email error and returns the identity it started from. *)
Lemma resolve_missing_email c inv w out w' tr ui claims ir :
  resolve c inv w = (out, w', tr) →
  "email" ∈ Scopes (oauth2Config c) →
  ui ∈ userInfos tr → UserInfo_Claims ui = inr claims →
  snd (claimString claims "email") = false →
  ir ∈ introspected tr → IdentityType ir ≠ "Service" →
  out = Returned (startIdentity inv) (Some ErrMissingEmailClaim).
Proof.
  intros Hrun Hscope Hui Hclaims Hemail Hir Hty.
  apply hasEmailScope_true in Hscope.
  apply resolve_path in Hrun
    as [[_ ->]|[(e & _ & _ & Hnone & _)|(pre & ctx & token & r & p & _ & _ & Htaken & -> & Hpui & Hpir)]].
  - by apply not_elem_of_nil in Hui.
  - rewrite Hnone in Hui. by apply not_elem_of_nil in Hui.
  - rewrite Hpui in Hui. rewrite Hpir in Hir.
    destruct p; simpl in *; singleton_members; try reflexivity;
      destruct Htaken as (Hc & Hpass & _); rewrite Hclaims in Hc; injection Hc as <-;
      destruct Hpass as [Hfound|Hno]; try congruence;
      rewrite (resolveEmail_other _ _ Hty) in Hfound; congruence.
Qed.

(** ** The identity resolver *)

(** C1. A resolution that returns without an error made exactly one
    successful introspection call, and the user identifier of the identity
    it returns is the subject of that response, whatever the userinfo claims
    or the caller supplied. *)
Theorem resolved_UserID_is_introspection_Sub c inv w id w' tr :
  resolve c inv w = (Returned id None, w', tr) →
  ∃ ir, introspected tr = [ir] ∧ UserID id = Sub ir.
Proof.
  intros Hrun.
  apply resolve_path in Hrun
    as [[? _]|[(e & ? & _)|(pre & ctx & token & r & p & _ & _ & _ & Hout & _ & Hir)]];
    try discriminate.
  destruct p; try discriminate.
  injection Hout as ->. exists ir. split; [exact Hir|reflexivity].
Qed.

(** C2. When the introspection response of a resolution says the identity is
    a Service, the resolution never fails for a missing email, and the email
    of the identity it returns is the subject of the introspection response,
    whatever the userinfo claims hold under [email]. *)
Theorem Service_email_is_introspection_Sub c inv w id err w' tr ir :
  resolve c inv w = (Returned id err, w', tr) →
  ir ∈ introspected tr →
  IdentityType ir = "Service" →
  err ≠ Some ErrMissingEmailClaim ∧ (err = None → Email id = Sub ir).
Proof.
  intros Hrun Hir Hty.
  apply resolve_path in Hrun
    as [[? _]|[(e & Hout & He & _ & Hnone)|(pre & ctx & token & r & p & _ & _ & Htaken & Hout & _ & Hpir)]];
    try discriminate.
  - rewrite Hnone in Hir. by apply not_elem_of_nil in Hir.
  - rewrite Hpir in Hir.
    destruct p; simpl in *; singleton_members; injection Hout as -> ->.
    + destruct Htaken as (_ & Hfound & _).
      rewrite (resolveEmail_Service _ _ Hty) in Hfound. discriminate.
    + destruct Htaken as (_ & _ & Hcheck). unfold checkHostedDomain in Hcheck.
      split; [|discriminate]. repeat case_match; congruence.
    + split; discriminate.
    + split; [discriminate|]. intros _. simpl.
      by rewrite (resolveEmail_Service _ _ Hty).
Qed.

(** C3. A resolution configured with the [email] scope, whose userinfo claims
    have no [email] entry and whose introspection response is not that of a
    Service, fails with the missing-email error; the identity component of
    the result is the one the invocation started from, none is assembled. *)
Theorem missing_email_claim_fails c inv w out w' tr ui claims ir :
  resolve c inv w = (out, w', tr) →
  "email" ∈ Scopes (oauth2Config c) →
  ui ∈ userInfos tr → UserInfo_Claims ui = inr claims →
  claims !! "email" = None →
  ir ∈ introspected tr → IdentityType ir ≠ "Service" →
  out = Returned (startIdentity inv) (Some ErrMissingEmailClaim).
Proof.
  intros Hrun Hscope Hui Hclaims Hemail Hir Hty.
  eapply resolve_missing_email; eauto.
  by rewrite (claimString_absent _ _ Hemail).
Qed.

(** C10. An [email] claim that is not a string counts as absent: under the
    [email] scope and for an identity that is not a Service, the resolution
    fails with the missing-email error although the claims have an [email]
    entry. *)
Theorem non_string_email_claim_is_missing c inv w out w' tr ui claims ir v :
  resolve c inv w = (out, w', tr) →
  "email" ∈ Scopes (oauth2Config c) →
  ui ∈ userInfos tr → UserInfo_Claims ui = inr claims →
  claims !! "email" = Some v → (∀ s, v ≠ JString s) →
  ir ∈ introspected tr → IdentityType ir ≠ "Service" →
  out = Returned (startIdentity inv) (Some ErrMissingEmailClaim).
Proof.
  intros Hrun Hscope Hui Hclaims Hemail Hns Hir Hty.
  eapply resolve_missing_email; eauto.
  by rewrite (claimString_not_string _ _ _ Hemail Hns).
Qed.

(** C6. Under a non-empty allow-list of hosted domains, the hosted-domain
    check passes exactly when the userinfo [hd] claim is an entry of the
    list, and raises the domain error otherwise. A resolution succeeds only
    if the claim is an entry; if it is not, the resolution fails, and it
    fails with the domain error whenever it gets to the check (introspection
    answered and the email step let it through). *)
Theorem hosted_domain_allow_list c inv w out w' tr ui claims :
  hostedDomains c ≠ [] →
  resolve c inv w = (out, w', tr) →
  ui ∈ userInfos tr → UserInfo_Claims ui = inr claims →
  let hd := fst (claimString claims "hd") in
  (checkHostedDomain c claims = None ↔ hd ∈ hostedDomains c) ∧
  (hd ∉ hostedDomains c → checkHostedDomain c claims = Some (ErrUnexpectedHD hd)) ∧
  (∀ id, out = Returned id None → hd ∈ hostedDomains c) ∧
  (hd ∉ hostedDomains c → ∃ e, out = Returned (startIdentity inv) (Some e)) ∧
  (hd ∉ hostedDomains c →
   ∀ ir, ir ∈ introspected tr → emailPasses c claims ir →
         out = Returned (startIdentity inv) (Some (ErrUnexpectedHD hd))).
Proof.
  intros Hne Hrun Hui Hclaims hd.
  pose proof (checkHostedDomain_spec c claims Hne) as Hcheck. fold hd in Hcheck.
  assert (Hpath : ∃ pre ctx token r p,
             pathTaken c token r (modeOf inv) p ∧
             tokenFrom c inv pre ctx token r ∧
             out = returned (pathResult (startIdentity inv) p) ∧
             pathUserInfos p = [ui] ∧ introspected tr = pathIntrospected p).
  { apply resolve_path in Hrun
      as [[_ ->]|[(e & _ & _ & Hnone & _)|(pre & ctx & token & r & p & Hfrom & _ & Htaken & -> & Hpui & Hpir)]].
    - by apply not_elem_of_nil in Hui.
    - rewrite Hnone in Hui. by apply not_elem_of_nil in Hui.
    - exists pre, ctx, token, r, p. rewrite Hpui in Hui.
      destruct p; simpl in Hui; singleton_members;
        (split; [exact Htaken|]); (split; [exact Hfrom|]); by repeat split. }
  destruct Hpath as (pre & ctx & token & r & p & Htaken & _ & -> & Hpui & Hpir).
  unfold returned. repeat split.
  - intros Hnone. rewrite Hnone in Hcheck. by case_decide.
  - intros Hin. rewrite Hcheck. by rewrite decide_True.
  - intros Hout. rewrite Hcheck. by rewrite decide_False.
  - intros id Hid.
    destruct p; try discriminate. simpl in Hpui. injection Hpui as ->.
    destruct Htaken as (Hc & _ & Hnone & _). rewrite Hclaims in Hc. injection Hc as <-.
    rewrite Hnone in Hcheck. by case_decide.
  - intros Hout. rewrite decide_False in Hcheck by done.
    destruct p; simpl in *; try (eexists; reflexivity); try discriminate;
      injection Hpui as ->; destruct Htaken as (Hc & _ & Hnone & _);
      rewrite Hclaims in Hc; injection Hc as <-; congruence.
  - intros Hout ir Hir Hpass. rewrite decide_False in Hcheck by done.
    rewrite Hpir in Hir.
    destruct p; simpl in *; try discriminate; singleton_members;
      injection Hpui as ->.
    + destruct Htaken as (Hc & Hfound & Hscope). rewrite Hclaims in Hc. injection Hc as <-.
      destruct Hpass; congruence.
    + destruct Htaken as (Hc & _ & Herr). rewrite Hclaims in Hc. injection Hc as <-.
      congruence.
    + destruct Htaken as (Hc & _ & Hnone & _). rewrite Hclaims in Hc. injection Hc as <-.
      congruence.
    + destruct Htaken as (Hc & _ & Hnone & _). rewrite Hclaims in Hc. injection Hc as <-.
      congruence.
Qed.

(** C4. The session blob of a successful resolution encodes session data
    whose refresh token is that of the token the resolution was run on. For
    a callback in SAML mode that token is the one decoded from the answer of
    the bearer exchange, and the assertion stored is the [assertion]
    parameter of the callback request; for a refresh or a token exchange
    (and for a callback outside SAML mode) the assertion is left nil. *)
Theorem session_blob_assertion_and_refresh_token c inv w id w' tr :
  resolve c inv w = (Returned id None, w', tr) →
  ∃ cd blob,
    IdConnectorData id = Some blob ∧
    json_Marshal_ConnectorData cd = inr blob ∧
    match inv with
    | Callback s r =>
        (isSAML c = true →
         cdAssertion cd = bytesOf (Values_Get (URL_Query (ReqURL r)) "assertion") ∧
         ∃ req resp body tresp,
           tr !! 0%nat = Some (EvDoRequest (ReqContext r) req (inr resp)) ∧
           BodyRead resp = inr body ∧
           json_Unmarshal_tokenResponse body = inr tresp ∧
           cdRefreshToken cd = bytesOf (trRefreshToken tresp)) ∧
        (isSAML c = false → cdAssertion cd = None)
    | Refreshing _ _ _ | Exchanging _ _ _ => cdAssertion cd = None
    end.
Proof.
  intros Hrun.
  apply resolve_path in Hrun
    as [[? _]|[(e & ? & _)|(pre & ctx & token & r & p & Hfrom & [tr2 ->] & Htaken & Hout & _)]];
    try discriminate.
  destruct p; try discriminate.
  injection Hout as ->. destruct Htaken as (_ & _ & _ & Hblob).
  exists (sessionData c token r (modeOf inv) ir user), blob.
  split; [reflexivity|]. split; [exact Hblob|].
  destruct inv as [s rq|ctx' s identity|ctx' ty tok]; simpl in Hfrom.
  - destruct Hfrom as (-> & -> & Hpre). split; intros Hsaml.
    + rewrite Hsaml in Hpre.
      destruct Hpre as (req & resp & body & tresp & -> & Hbody & _ & Hjson & ->).
      split; [simpl; by rewrite Hsaml|].
      exists req, resp, body, tresp. by repeat split.
    + simpl. by rewrite Hsaml.
  - by destruct Hfrom as (-> & _).
  - by destruct Hfrom as (-> & _).
Qed.

(** ** The callback exchanger *)

(** C5. A callback whose query carries a non-empty [error] parameter returns
    the zero identity with the upstream error made of the error code and the
    error description; the world is untouched and no call left the
    connector, so neither token exchange was attempted. *)
Theorem callback_error_parameter c s r w :
  Values_Get (URL_Query (ReqURL r)) "error" ≠ "" →
  HandleCallback c s r w =
  (Returned Identity_zero
     (Some (OAuth2Error (Values_Get (URL_Query (ReqURL r)) "error")
                        (Values_Get (URL_Query (ReqURL r)) "error_description"))),
   w, []).
Proof.
  intros Herr. unfold HandleCallback.
  destruct (String.eqb_spec (Values_Get (URL_Query (ReqURL r)) "error") "") as [Heq|_];
    [contradiction|reflexivity].
Qed.

(** ** Errors and identities *)

(** C7, as the code has it. [LoginURL] returns the empty string with every
    error. A resolution that fails with any error but the one raised when the
    session data cannot be encoded returns the identity it started from:
    the zero identity for [HandleCallback] and [TokenIdentity], and for
    [Refresh] the identity it was given, unchanged. *)
Theorem error_returns_the_starting_identity c :
  (∀ s callbackURL state url e,
      LoginURL c s callbackURL state = Returned url (Some e) → url = "") ∧
  (∀ inv w id e w' tr,
      resolve c inv w = (Returned id (Some e), w', tr) →
      (∀ cause, e ≠ ErrEncodeConnectorData cause) →
      id = startIdentity inv).
Proof.
  split.
  - intros s callbackURL state url e. unfold LoginURL.
    repeat case_match; intros [= <- <-] || intros [=]; reflexivity.
  - intros inv w id e w' tr Hrun Hne.
    apply resolve_path in Hrun
      as [[? _]|[(e' & Hout & _)|(pre & ctx & token & r & p & _ & _ & _ & Hout & _)]];
      try discriminate.
    + by injection Hout as ->.
    + destruct p; unfold returned in Hout; simpl in Hout; try discriminate;
        injection Hout as -> ->; try reflexivity.
      by destruct (Hne cause).
Qed.

(** ** The login URL builder *)

(** C8, as the code has it. In SAML mode, for the configured callback URL,
    [LoginURL] fails with the invalid-login-URL error when the configured
    SAML login URL does not parse. When it parses, the URL returned is the
    SAML login URL with its query changed in one place: [redirect_uri] is
    the callback URL, itself with its query changed in one place: [state]
    is the state value. *)
Theorem LoginURL_saml c s callbackURL state cbu :
  isSAML c = true →
  redirectURI c = callbackURL →
  url_Parse callbackURL = inr cbu →
  match url_Parse (samlLoginURL c) with
  | inl cause =>
      LoginURL c s callbackURL state = Returned "" (Some (ErrInvalidSAMLLoginURL cause))
  | inr u =>
      ∃ q qcb : Values,
        LoginURL c s callbackURL state =
          Returned (URL_String (URL_withRawQuery u (Values_Encode q))) None ∧
        q !! "redirect_uri" = Some [URL_String (URL_withRawQuery cbu (Values_Encode qcb))] ∧
        (∀ k, k ≠ "redirect_uri" → q !! k = URL_Query u !! k) ∧
        qcb !! "state" = Some [state] ∧
        (∀ k, k ≠ "state" → qcb !! k = URL_Query cbu !! k)
  end.
Proof.
  intros Hsaml Hcb Hcbu. unfold LoginURL.
  rewrite Hcb, String.eqb_refl, Hsaml, Hcbu. simpl.
  destruct (url_Parse (samlLoginURL c)) as [cause|u]; [reflexivity|].
  eexists _, _. split; [reflexivity|]. unfold Values_Set.
  split; [apply lookup_insert_eq|].
  split; [intros k Hk; by apply lookup_insert_ne|].
  split; [apply lookup_insert_eq|].
  intros k Hk. by apply lookup_insert_ne.
Qed.

(** ** Token exchange *)

(** C9. [TokenIdentity] does not look at the subject-token type: two calls
    that differ in it only, from the same state of the world, make the same
    calls and return the same identity and error. *)
Theorem TokenIdentity_ignores_subjectTokenType c ctx subjectTokenType1 subjectTokenType2
    subjectToken w :
  TokenIdentity c ctx subjectTokenType1 subjectToken w =
  TokenIdentity c ctx subjectTokenType2 subjectToken w.
Proof. reflexivity. Qed.

(** * Further properties of the connector *)

(** ** Configuration *)

Lemma elem_of_removeElement {T : Type} `{EqDecision T} (slice : list T) (y x : T) :
  x ∈ removeElement slice y ↔ x ∈ slice ∧ x ≠ y.
Proof. rewrite removeElement_filter, list_elem_of_filter. tauto. Qed.


(** The scopes [Open] asks for start with [openid], never hold
    [federated:id], are the default ones when none is configured, and hold
    every other configured scope. *)
Theorem Open_scopes cfg endpoint ext :
  let scopes := Scopes (oauth2Config (Open cfg endpoint ext)) in
  (scopes !! 0%nat = Some "openid" ∧
   ("federated:id" ∉ scopes) ∧
   (ConfigScopes cfg = [] → scopes = ["openid"; "profile"; "email"; "groups"]) ∧
   (∀ s, s ∈ ConfigScopes cfg → s ≠ "federated:id" → s ∈ scopes)).
Proof.
  unfold Open, openScopes. simpl.
  destruct (ConfigScopes cfg) as [|s0 rest] eqn:Hscopes.
  - simpl. split; [reflexivity|]. split; [|split; [reflexivity|]].
    + intros Hin. repeat (apply elem_of_cons in Hin as [Heq|Hin]; [discriminate|]).
      by apply not_elem_of_nil in Hin.
    + intros s Hin. by apply not_elem_of_nil in Hin.
  - change (0 <? Z.of_nat (length (s0 :: rest))) with true. cbv iota.
    split; [reflexivity|]. split; [|split; [discriminate|]].
    + intros Hin. apply elem_of_cons in Hin as [Heq|Hin]; [discriminate|].
      apply elem_of_removeElement in Hin as [_ Hne]. by apply Hne.
    + intros s Hin Hne. apply list_elem_of_further.
      by apply elem_of_removeElement.
Qed.

Lemma isSAML_true c : isSAML c = true ↔ samlLoginURL c ≠ "".
Proof.
  unfold isSAML. destruct (samlLoginURL c) as [|a rest].
  - split; [discriminate|done].
  - split; [discriminate|]. intros _. apply Z.ltb_lt. simpl. lia.
Qed.

(** [Open] carries the configuration over: the prompt type defaults to
    [consent] and is never empty, SAML mode is on exactly when a SAML2 login
    URL is configured, the endpoints found by discovery are kept, and the
    authentication style is changed only when the configuration says basic
    authentication is unsupported. *)
Theorem Open_settings cfg endpoint ext :
  let c := Open cfg endpoint ext in
  (promptType c ≠ "" ∧
   (PromptType cfg = "" → promptType c = "consent") ∧
   (PromptType cfg ≠ "" → promptType c = PromptType cfg) ∧
   (isSAML c = true ↔ SAML2LoginURL cfg ≠ "") ∧
   redirectURI c = RedirectURI cfg ∧ RedirectURL (oauth2Config c) = RedirectURI cfg ∧
   AuthURL (cfgEndpoint (oauth2Config c)) = AuthURL endpoint ∧
   TokenURL (cfgEndpoint (oauth2Config c)) = TokenURL endpoint ∧
   EndpointAuthStyle (cfgEndpoint (oauth2Config c)) =
     match BasicAuthUnsupported cfg with
     | Some true => AuthStyleInParams
     | _ => EndpointAuthStyle endpoint
     end).
Proof.
  intros c. subst c. rewrite isSAML_true. unfold Open. simpl.
  destruct (String.eqb_spec (PromptType cfg) "") as [Heq|Hne].
  - repeat split; try done; destruct (BasicAuthUnsupported cfg) as [[|]|]; reflexivity.
  - repeat split; try done; destruct (BasicAuthUnsupported cfg) as [[|]|]; reflexivity.
Qed.

Lemma string_length_app (s1 s2 : string) :
  String.length (s1 ++ s2) = (String.length s1 + String.length s2)%nat.
Proof. induction s1 as [|a s1 IH]; simpl; [reflexivity|by rewrite IH]. Qed.

(** The message of an upstream error is the error code alone exactly when
    there is no description. *)
Theorem oauth2Error_Error_code_only err errorDescription :
  oauth2Error_Error err errorDescription = err ↔ errorDescription = "".
Proof.
  unfold oauth2Error_Error. destruct (String.eqb_spec errorDescription "") as [->|Hne].
  - done.
  - split; [|done]. intros Heq. exfalso.
    apply (f_equal String.length) in Heq.
    rewrite !string_length_app in Heq. simpl in Heq. lia.
Qed.

(** ** The login URL builder *)

(** [LoginURL] refuses a callback URL exactly when it is not the configured
    redirect URI; it then returns the empty URL, in either mode, before any
    URL is parsed. *)
Theorem LoginURL_callback_mismatch c s callbackURL state :
  (redirectURI c ≠ callbackURL →
   LoginURL c s callbackURL state =
   Returned "" (Some (ErrCallbackMismatch callbackURL (redirectURI c)))) ∧
  (∀ url a b, LoginURL c s callbackURL state = Returned url (Some (ErrCallbackMismatch a b)) →
              redirectURI c ≠ callbackURL).
Proof.
  unfold LoginURL. destruct (String.eqb_spec (redirectURI c) callbackURL) as [Heq|Hne]; simpl.
  - split; [done|]. intros url a b. repeat case_match; discriminate.
  - split; [done|]. done.
Qed.

(** Outside SAML mode, [LoginURL] for the configured callback URL always
    returns the authorization-code URL of the OAuth2 configuration. Its
    options hold one [hd] hint when hosted domains are configured (the
    domain itself if there is one, a star if there are several) and none
    otherwise, and the offline access type with the prompt exactly when
    offline access is asked for. *)
Theorem LoginURL_oauth2 c s callbackURL state :
  isSAML c = false →
  redirectURI c = callbackURL →
  LoginURL c s callbackURL state =
    Returned (oauth2_AuthCodeURL (oauth2Config c) state (authCodeOptions c s)) None ∧
  filter (λ opt, fst opt = "hd") (authCodeOptions c s) =
    match hostedDomains c with
    | [] => []
    | [domain] => [("hd", domain)]
    | _ :: _ :: _ => [("hd", "*")]
    end ∧
  filter (λ opt, fst opt ≠ "hd") (authCodeOptions c s) =
    if OfflineAccess s
    then [("access_type", "offline"); ("prompt", promptType c)]
    else [].
Proof.
  intros Hsaml Hcb. split.
  - unfold LoginURL. by rewrite Hcb, String.eqb_refl, Hsaml.
  - unfold authCodeOptions, AccessTypeOffline, SetAuthURLParam.
    destruct (hostedDomains c) as [|d [|d' ds]], (OfflineAccess s); split; reflexivity.
Qed.

(** ** Traces of resolutions *)

(** Every run of [createIdentity] takes one of the paths and makes the
    calls of that path. *)
Lemma createIdentity_run c ctx identity token r who w res w' tr :
  createIdentity c ctx identity token r who w = (res, w', tr) →
  ∃ p perr, pathTaken c token r who p ∧ res = pathResult identity p ∧
            tr = pathTrace ctx token perr p.
Proof.
  intros Hrun. createIdentity_paths Hrun; injection Hrun as <- <- <-.
  - eexists (FailedUserInfo _), None. by repeat split.
  - eexists (FailedClaims _ _), None. by repeat split.
  - eexists (FailedIntrospect _ _ _), None. by repeat split.
  - eexists (FailedEmail _ _ _), None. simpl.
    match goal with E : negb ?a && ?b = true |- _ =>
      apply andb_true_iff in E as [Ha Hb]; apply negb_true_iff in Ha end.
    by repeat split.
  - eexists (FailedHostedDomain _ _ _ _), None. simpl.
    match goal with E : negb ?a && ?b = false |- _ =>
      apply andb_false_iff in E as [Ha|Hb]; [apply negb_false_iff in Ha|] end.
    all: repeat split; try eassumption; unfold emailPasses; auto.
  - match goal with E : LegacyGetUserByUUID _ _ _ = (?res, _) |- _ =>
      eexists (FailedEncode _ _ _ (fst res) _), (snd res); destruct res as [user perr] end.
    simpl.
    match goal with E : negb ?a && ?b = false |- _ =>
      apply andb_false_iff in E as [Ha|Hb]; [apply negb_false_iff in Ha|] end.
    all: repeat split; try eassumption; unfold emailPasses; auto.
  - match goal with E : LegacyGetUserByUUID _ _ _ = (?res, _) |- _ =>
      eexists (Resolved _ _ _ (fst res) _), (snd res); destruct res as [user perr] end.
    simpl.
    match goal with E : negb ?a && ?b = false |- _ =>
      apply andb_false_iff in E as [Ha|Hb]; [apply negb_false_iff in Ha|] end.
    all: repeat split; try eassumption; unfold emailPasses; auto.
Qed.

(** Every resolution panics, fails on fetching its token after at most that
    one call, or fetches a token and takes a path of the resolver. *)
Lemma resolve_run c inv w out w' tr :
  resolve c inv w = (out, w', tr) →
  (out = Panicked ∧ tr = []) ∨
  (∃ e, out = Returned (startIdentity inv) (Some e) ∧ beforeResolver e ∧
        (tr = [] ∨ ∃ ev, tr = [ev] ∧ isTokenFetch ev = true)) ∨
  (∃ pre ctx token r p perr,
      tokenFrom c inv pre ctx token r ∧
      pathTaken c token r (modeOf inv) p ∧
      out = returned (pathResult (startIdentity inv) p) ∧
      tr = (pre ++ pathTrace ctx token perr p)%list).
Proof.
  destruct inv as [s rq|ctx s identity|ctx ty tok]; simpl.
  - unfold HandleCallback. unfold_M.
    destruct (negb (Values_Get (URL_Query (ReqURL rq)) "error" =? "")%string).
    { intros [= <- <- <-]. right; left. eexists. repeat split. by left. }
    destruct (isSAML c) eqn:Esaml.
    + destruct (http_NewRequest _ _ _) as [req|].
      2:{ intros [= <- <- <-]. left. split; reflexivity. }
      match goal with |- context [doRequest ?x ?y w] =>
        destruct (doRequest x y w) as [[err|resp] w1] eqn:Ereq end; simpl.
      { intros [= <- <- <-]. right; left. eexists. repeat split. right. by eexists. }
      destruct (BodyRead resp) as [err|body] eqn:Ebody; simpl.
      { intros [= <- <- <-]. right; left. eexists. repeat split. right. by eexists. }
      destruct (StatusCode resp =? http_StatusOK) eqn:Ecode; simpl.
      2:{ intros [= <- <- <-]. right; left. eexists. repeat split. right. by eexists. }
      destruct (json_Unmarshal_tokenResponse body) as [err|tresp] eqn:Ejson; simpl.
      { intros [= <- <- <-]. right; left. eexists. repeat split. right. by eexists. }
      destruct (createIdentity c (ReqContext rq) Identity_zero (tokenOfResponse tresp)
                  (Some rq) createCaller w1) as [[res w2] tr2] eqn:Ecreate.
      intros [= <- <- <-]. right; right.
      apply createIdentity_run in Ecreate as (p & perr & Htaken & -> & ->).
      eexists [_], _, _, _, p, perr.
      split; [|split; [exact Htaken|split; reflexivity]].
      unfold tokenFrom. split; [reflexivity|]. split; [reflexivity|].
      eexists _, _, _, _. split; [reflexivity|]. split; [exact Ebody|].
      split; [by apply Z.eqb_eq|]. split; [exact Ejson|reflexivity].
    + destruct (oauth2_Exchange _ _ _ w) as [[err|token] w1] eqn:Eex; simpl.
      { intros [= <- <- <-]. right; left. eexists. repeat split. right. by eexists. }
      destruct (createIdentity c (ReqContext rq) Identity_zero token
                  (Some rq) createCaller w1) as [[res w2] tr2] eqn:Ecreate.
      intros [= <- <- <-]. right; right.
      apply createIdentity_run in Ecreate as (p & perr & Htaken & -> & ->).
      eexists [_], _, _, _, p, perr.
      split; [|split; [exact Htaken|split; reflexivity]].
      unfold tokenFrom. repeat split.
  - unfold Refresh. unfold_M.
    destruct (json_Unmarshal_ConnectorData (IdConnectorData identity)) as [err|cd] eqn:Ecd; simpl.
    { intros [= <- <- <-]. right; left. eexists. repeat split. by left. }
    match goal with |- context [oauth2_TokenSource_Token ?x ?y ?t w] =>
      destruct (oauth2_TokenSource_Token x y t w) as [[err|token] w1] eqn:Ets end; simpl.
    { intros [= <- <- <-]. right; left. eexists. repeat split. right. by eexists. }
    destruct (createIdentity c ctx identity token None refreshCaller w1)
      as [[res w2] tr2] eqn:Ecreate.
    intros [= <- <- <-]. right; right.
    apply createIdentity_run in Ecreate as (p & perr & Htaken & -> & ->).
    eexists [_], _, _, _, p, perr.
    split; [|split; [exact Htaken|split; reflexivity]].
    simpl. split; [reflexivity|]. split; [reflexivity|].
    eexists _, _. split; [reflexivity|]. split; [|reflexivity]. reflexivity.
  - unfold TokenIdentity. unfold_M.
    match goal with |- context [createIdentity c ctx ?i ?t None exchangeCaller w] =>
      destruct (createIdentity c ctx i t None exchangeCaller w) as [[res w2] tr2] eqn:Ecreate end.
    intros [= <- <- <-]. right; right.
    apply createIdentity_run in Ecreate as (p & perr & Htaken & -> & ->).
    eexists [], _, _, _, p, perr.
    split; [|split; [exact Htaken|split; reflexivity]].
    simpl. repeat split.
Qed.

Lemma tokenFrom_fetches c inv pre ctx token r :
  tokenFrom c inv pre ctx token r →
  pre = [] ∨ ∃ ev, pre = [ev] ∧ isTokenFetch ev = true.
Proof.
  destruct inv as [s rq|ctx' s identity|ctx' ty tok]; simpl.
  - intros (_ & _ & Hpre). destruct (isSAML c).
    + destruct Hpre as (req & resp & body & tresp & -> & _). right. by eexists.
    + subst pre. right. by eexists.
  - intros (_ & _ & cd & t & _ & _ & ->). right. by eexists.
  - intros (_ & _ & -> & _). by left.
Qed.

(** Membership in the trace of a resolution that entered the resolver. *)
Lemma elem_of_resolver_trace c inv pre ctx token r perr p ev :
  tokenFrom c inv pre ctx token r →
  ev ∈ (pre ++ pathTrace ctx token perr p)%list →
  isTokenFetch ev = false →
  ev ∈ pathTrace ctx token perr p.
Proof.
  intros Hfrom Hin Hev. apply elem_of_app in Hin as [Hin|Hin]; [|exact Hin].
  apply tokenFrom_fetches in Hfrom as [->|(ev' & -> & Hfetch)].
  - by apply not_elem_of_nil in Hin.
  - apply list_elem_of_singleton in Hin as ->. congruence.
Qed.

Lemma elem_of_profileEvents token ir res ev :
  ev ∈ profileEvents token ir res ↔
  ev = EvGetUser (AccessToken token) (Sub ir) res ∨
  ∃ cause, snd res = Some cause ∧ ev = EvLogError "failed to get user profile" cause.
Proof.
  unfold profileEvents. rewrite elem_of_cons. destruct (snd res) as [cause|].
  - rewrite list_elem_of_singleton. split.
    + intros [->| ->]; [by left|right; by eexists].
    + intros [->|(cause' & [= <-] & ->)]; [by left|by right].
  - split.
    + intros [->|Hin]; [by left|by apply not_elem_of_nil in Hin].
    + intros [->|(cause' & [=] & _)]. by left.
Qed.

(** Invert the trace of a resolution on one of its events. *)
Ltac trace_member Hin :=
  cbv beta iota delta [pathTrace profileEvents] in Hin; simpl in Hin;
  repeat first
    [ apply elem_of_cons in Hin as [Hin|Hin]; [try discriminate Hin|]
    | match type of Hin with
      | _ ∈ match ?x with _ => _ end => destruct x
      end ];
  try (by apply not_elem_of_nil in Hin).

(** The introspection call of a resolution comes after a userinfo call that
    succeeded and whose claims decoded, and carries the same context and
    token as that call. *)
Theorem introspection_follows_userinfo c inv w out w' tr ctx token res :
  resolve c inv w = (out, w', tr) →
  EvIntrospect ctx token res ∈ tr →
  ∃ ui claims (before after : list Event),
    UserInfo_Claims ui = inr claims ∧
    tr = (before ++ EvUserInfo ctx token (inr ui) :: EvIntrospect ctx token res :: after)%list.
Proof.
  intros Hrun Hin.
  apply resolve_run in Hrun
    as [[_ ->]|[(e & _ & _ & [->|(ev & -> & Hev)])|(pre & ctx0 & token0 & r & p & perr & Hfrom & Htaken & _ & ->)]].
  - by apply not_elem_of_nil in Hin.
  - by apply not_elem_of_nil in Hin.
  - apply list_elem_of_singleton in Hin as <-. discriminate.
  - apply (elem_of_resolver_trace _ _ _ _ _ _ _ _ _ Hfrom) in Hin; [|reflexivity].
    destruct p; simpl in Htaken; trace_member Hin; injection Hin as -> -> ->.
    + exists ui, claims, pre, []. by split.
    + destruct Htaken as (Hc & _). exists ui, claims, pre, []. by split.
    + destruct Htaken as (Hc & _). exists ui, claims, pre, []. by split.
    + destruct Htaken as (Hc & _). eexists ui, claims, pre, _. by split.
    + destruct Htaken as (Hc & _). eexists ui, claims, pre, _. by split.
Qed.

(** A userinfo call that fails, or whose claims do not decode, ends the
    resolution with that error and the starting identity: introspection
    and the profile lookup are not called. *)
Theorem userinfo_failure_is_fatal c inv w out w' tr ctx token res :
  resolve c inv w = (out, w', tr) →
  EvUserInfo ctx token res ∈ tr →
  (∀ ui claims, res = inr ui → UserInfo_Claims ui ≠ inr claims) →
  (∃ cause,
      (res = inl cause ∧ out = Returned (startIdentity inv) (Some (ErrUserInfo cause))) ∨
      (∃ ui, res = inr ui ∧ UserInfo_Claims ui = inl cause ∧
             out = Returned (startIdentity inv) (Some (ErrDecodeClaims cause)))) ∧
  (∀ ev, ev ∈ tr → isTokenFetch ev = true ∨ ev = EvUserInfo ctx token res).
Proof.
  intros Hrun Hin Hbad.
  apply resolve_run in Hrun
    as [[_ ->]|[(e & _ & _ & [->|(ev & -> & Hev)])|(pre & ctx0 & token0 & r & p & perr & Hfrom & Htaken & -> & ->)]].
  - by apply not_elem_of_nil in Hin.
  - by apply not_elem_of_nil in Hin.
  - apply list_elem_of_singleton in Hin as <-. discriminate.
  - apply (elem_of_resolver_trace _ _ _ _ _ _ _ _ _ Hfrom) in Hin; [|reflexivity].
    assert (Hpre : ∀ ev, ev ∈ pre → isTokenFetch ev = true).
    { intros ev Hev. apply tokenFrom_fetches in Hfrom as [->|(ev' & -> & Hfetch)].
      - by apply not_elem_of_nil in Hev.
      - by apply list_elem_of_singleton in Hev as ->. }
    destruct p; simpl in Htaken; trace_member Hin; injection Hin as -> -> ->;
      try (destruct Htaken as (Hc & _); by destruct (Hbad _ _ eq_refl Hc)).
    + split; [exists cause; by left|].
      intros ev Hev. apply elem_of_app in Hev as [Hev|Hev]; [left; by apply Hpre|].
      right. by apply list_elem_of_singleton in Hev.
    + split; [exists cause; right; by exists ui|].
      intros ev Hev. apply elem_of_app in Hev as [Hev|Hev]; [left; by apply Hpre|].
      right. by apply list_elem_of_singleton in Hev.
    + by destruct (Hbad _ _ eq_refl Htaken).
Qed.

(** An introspection call that fails ends the resolution with the
    introspection error and the starting identity; the profile lookup is not
    called. *)
Theorem introspection_failure_is_fatal c inv w out w' tr ctx token cause :
  resolve c inv w = (out, w', tr) →
  EvIntrospect ctx token (inl cause) ∈ tr →
  out = Returned (startIdentity inv) (Some (ErrIntrospect cause)) ∧
  profileLookups tr = [] ∧
  last tr = Some (EvIntrospect ctx token (inl cause)).
Proof.
  intros Hrun Hin.
  apply resolve_run in Hrun
    as [[_ ->]|[(e & _ & _ & [->|(ev & -> & Hev)])|(pre & ctx0 & token0 & r & p & perr & Hfrom & Htaken & -> & ->)]].
  - by apply not_elem_of_nil in Hin.
  - by apply not_elem_of_nil in Hin.
  - apply list_elem_of_singleton in Hin as <-. discriminate.
  - apply (elem_of_resolver_trace _ _ _ _ _ _ _ _ _ Hfrom) in Hin; [|reflexivity].
    destruct p; simpl in Htaken; trace_member Hin; injection Hin as -> -> ->.
    split; [reflexivity|]. simpl.
    apply tokenFrom_fetches in Hfrom as [->|(ev' & -> & Hfetch)]; simpl.
    + by split.
    + destruct ev'; try discriminate; by split.
Qed.

(** The profile lookup is made only once introspection has answered and the
    email and hosted-domain steps have passed, with the access token of the
    resolution's token and the subject of the introspection response. *)
Theorem profile_lookup_comes_last c inv w out w' tr accessToken uuid res :
  resolve c inv w = (out, w', tr) →
  EvGetUser accessToken uuid res ∈ tr →
  ∃ ctx token ui claims ir,
    EvUserInfo ctx token (inr ui) ∈ tr ∧ UserInfo_Claims ui = inr claims ∧
    EvIntrospect ctx token (inr ir) ∈ tr ∧
    accessToken = AccessToken token ∧ uuid = Sub ir ∧
    emailPasses c claims ir ∧ checkHostedDomain c claims = None ∧
    profileLookups tr = [(accessToken, uuid)].
Proof.
  intros Hrun Hin.
  apply resolve_run in Hrun
    as [[_ ->]|[(e & _ & _ & [->|(ev & -> & Hev)])|(pre & ctx0 & token0 & r & p & perr & Hfrom & Htaken & _ & ->)]].
  - by apply not_elem_of_nil in Hin.
  - by apply not_elem_of_nil in Hin.
  - apply list_elem_of_singleton in Hin as <-. discriminate.
  - apply (elem_of_resolver_trace _ _ _ _ _ _ _ _ _ Hfrom) in Hin; [|reflexivity].
    assert (Hquiet : profileLookups pre = []).
    { apply tokenFrom_fetches in Hfrom as [->|(ev' & -> & Hfetch)]; [reflexivity|].
      by destruct ev'. }
    destruct p; simpl in Htaken; trace_member Hin; injection Hin as -> -> ->;
      destruct Htaken as (Hc & Hpass & Hcheck & _);
      exists ctx0, token0, ui, claims, ir;
      (split; [apply elem_of_app; right; apply list_elem_of_here|]);
      (split; [exact Hc|]);
      (split; [apply elem_of_app; right; apply list_elem_of_further, list_elem_of_here|]);
      repeat (split; [done|]);
      unfold profileLookups in *; rewrite omap_app, Hquiet; by destruct perr.
Qed.

(** The profile lookup is best effort: whatever it answers, the resolution
    goes on to encode the session data, with the profile it got or the zero
    profile, and fails only if the encoding does; an error of the lookup is
    logged. *)
Theorem profile_lookup_is_best_effort c inv w out w' tr accessToken uuid user perr :
  resolve c inv w = (out, w', tr) →
  EvGetUser accessToken uuid (user, perr) ∈ tr →
  (∀ cause, perr = Some cause → EvLogError "failed to get user profile" cause ∈ tr) ∧
  ∃ cd id,
    cdUser cd = default Profile_zero user ∧
    match json_Marshal_ConnectorData cd with
    | inr blob => out = Returned id None ∧ IdConnectorData id = Some blob
    | inl cause => out = Returned id (Some (ErrEncodeConnectorData cause))
    end.
Proof.
  intros Hrun Hin.
  apply resolve_run in Hrun
    as [[_ ->]|[(e & _ & _ & [->|(ev & -> & Hev)])|(pre & ctx0 & token0 & r & p & perr0 & Hfrom & Htaken & -> & ->)]].
  - by apply not_elem_of_nil in Hin.
  - by apply not_elem_of_nil in Hin.
  - apply list_elem_of_singleton in Hin as <-. discriminate.
  - apply (elem_of_resolver_trace _ _ _ _ _ _ _ _ _ Hfrom) in Hin; [|reflexivity].
    destruct p; simpl in Htaken; trace_member Hin; simplify_eq;
      destruct Htaken as (_ & _ & _ & Hblob).
    all: split;
      [ intros cause' Hsome; simplify_eq;
        apply elem_of_app; right; simpl;
        do 3 apply list_elem_of_further; apply list_elem_of_here
      | match type of Hblob with
        | json_Marshal_ConnectorData ?cd = _ => eexists cd, _
        end;
        split; [reflexivity|]; rewrite Hblob; unfold returned; simpl;
        try (split; reflexivity); reflexivity ].
Qed.

(** The calls of a successful resolution, in order: the fetch of the token
    if the invocation has one, userinfo and introspection with that token,
    the profile lookup, and a log entry if the lookup returned an error. *)
Theorem successful_resolution_calls c inv w id w' tr :
  resolve c inv w = (Returned id None, w', tr) →
  ∃ pre ctx token r ui ir res,
    tokenFrom c inv pre ctx token r ∧
    tr = (pre ++ EvUserInfo ctx token (inr ui) :: EvIntrospect ctx token (inr ir)
              :: profileEvents token ir res)%list.
Proof.
  intros Hrun.
  apply resolve_run in Hrun
    as [[? _]|[(e & ? & _)|(pre & ctx & token & r & p & perr & Hfrom & _ & Hout & ->)]];
    try discriminate.
  destruct p; try discriminate.
  eexists pre, ctx, token, r, ui, ir, _. split; [exact Hfrom|reflexivity].
Qed.

(** ** The identity and the session data *)

(** For an identity that is not a Service, the email returned is the
    userinfo [email] claim when it is a string. When there is no such claim
    the resolution succeeds only if the [email] scope is not configured, and
    the email returned is then empty. *)
Theorem email_of_other_identities c inv w id w' tr ui claims ir :
  resolve c inv w = (Returned id None, w', tr) →
  ui ∈ userInfos tr → UserInfo_Claims ui = inr claims →
  ir ∈ introspected tr → IdentityType ir ≠ "Service" →
  match claims !! "email" with
  | Some (JString email) => Email id = email
  | _ => Email id = "" ∧ "email" ∉ Scopes (oauth2Config c)
  end.
Proof.
  intros Hrun Hui Hclaims Hir Hty.
  apply resolve_path in Hrun
    as [[? _]|[(e & ? & _)|(pre & ctx & token & r & p & _ & _ & Htaken & Hout & Hpui & Hpir)]];
    try discriminate.
  destruct p; try discriminate. injection Hout as ->.
  rewrite Hpui in Hui. rewrite Hpir in Hir. simpl in *. singleton_members.
  destruct Htaken as (Hc & Hpass & _). rewrite Hclaims in Hc. injection Hc as <-.
  unfold emailPasses in Hpass. rewrite (resolveEmail_other _ _ Hty) in *.
  unfold claimString in *.
  destruct (claims !! "email") as [[]|]; simpl in *; try reflexivity;
    (split; [reflexivity|]);
    (destruct Hpass as [Hfound|Hscope]; [discriminate|]);
    intros Hin; apply hasEmailScope_true in Hin; congruence.
Qed.

(** Every identity returned without an error has the username of the
    introspection response and is marked email-verified, in both modes and
    whatever the configuration says about skipping the verification. *)
Theorem resolved_Username_and_EmailVerified c inv w id w' tr ir :
  resolve c inv w = (Returned id None, w', tr) →
  ir ∈ introspected tr →
  IdUsername id = Username ir ∧ EmailVerified id = true.
Proof.
  intros Hrun Hir.
  apply resolve_path in Hrun
    as [[? _]|[(e & ? & _)|(pre & ctx & token & r & p & _ & _ & _ & Hout & _ & Hpir)]];
    try discriminate.
  destruct p; try discriminate. injection Hout as ->.
  rewrite Hpir in Hir. simpl in Hir. singleton_members. by split.
Qed.

(** The session data encoded for the identity has the access token of the
    token the resolution ran on and the introspection response. The groups,
    the trusted organisation, the audience trust map and the tenant map are
    never filled in, also when the connector has a tenant map. *)
Theorem session_blob_contents c inv w id w' tr :
  resolve c inv w = (Returned id None, w', tr) →
  ∃ cd blob ctx token ir,
    IdConnectorData id = Some blob ∧
    json_Marshal_ConnectorData cd = inr blob ∧
    EvIntrospect ctx token (inr ir) ∈ tr ∧
    cdAccessToken cd = bytesOf (AccessToken token) ∧
    cdRefreshToken cd = bytesOf (RefreshToken token) ∧
    cdIntrospect cd = ir ∧
    cdGroups cd = [] ∧ cdTrustedIDPOrg cd = "" ∧
    cdAudienceTrustMap cd = ∅ ∧ cdTenantMap cd = ∅.
Proof.
  intros Hrun.
  apply resolve_run in Hrun
    as [[? _]|[(e & ? & _)|(pre & ctx & token & r & p & perr & Hfrom & Htaken & Hout & ->)]];
    try discriminate.
  destruct p; try discriminate. injection Hout as ->.
  destruct Htaken as (_ & _ & _ & Hblob).
  eexists _, blob, ctx, token, ir. split; [reflexivity|]. split; [exact Hblob|].
  split; [|by repeat split].
  apply elem_of_app. right. simpl. apply list_elem_of_further, list_elem_of_here.
Qed.

(** An identity obtained by [TokenIdentity] has session data without a
    refresh token: the access token stored is the subject token, the refresh
    token is empty and no assertion is stored. *)
Theorem TokenIdentity_session_blob c ctx subjectTokenType subjectToken w id w' tr :
  TokenIdentity c ctx subjectTokenType subjectToken w = ((id, None), w', tr) →
  ∃ cd blob,
    IdConnectorData id = Some blob ∧
    json_Marshal_ConnectorData cd = inr blob ∧
    cdAccessToken cd = bytesOf subjectToken ∧
    cdRefreshToken cd = bytesOf "" ∧
    cdAssertion cd = None ∧
    stringOf (cdRefreshToken cd) = "".
Proof.
  unfold TokenIdentity. intros Hrun.
  apply createIdentity_run in Hrun as (p & perr & Htaken & Hres & _).
  destruct p; try discriminate. injection Hres as ->.
  destruct Htaken as (_ & _ & _ & Hblob).
  eexists _, blob. split; [reflexivity|]. split; [exact Hblob|]. by repeat split.
Qed.

(** With no hosted domain configured the hosted-domain step never fails:
    no resolution returns the domain error, whatever the [hd] claim. *)
Theorem empty_allow_list_accepts_every_domain c inv w out w' tr :
  hostedDomains c = [] →
  resolve c inv w = (out, w', tr) →
  ∀ id hostedDomain, out ≠ Returned id (Some (ErrUnexpectedHD hostedDomain)).
Proof.
  intros Hnone Hrun id hostedDomain Hout.
  apply resolve_path in Hrun
    as [[-> _]|[(e & -> & He & _)|(pre & ctx & token & r & p & _ & _ & Htaken & -> & _)]];
    try discriminate.
  - injection Hout as _ ->. exact He.
  - destruct p; try discriminate. injection Hout as _ ->.
    destruct Htaken as (_ & _ & Hcheck). unfold checkHostedDomain in Hcheck.
    rewrite Hnone in Hcheck. discriminate.
Qed.

(** Under a non-empty allow-list, a missing [hd] claim, or one that is not
    a string, is checked as the empty domain: a resolution that gets to the
    check fails with the domain error for the empty domain, unless the list
    holds the empty string. *)
Theorem missing_hd_claim_is_the_empty_domain c inv w out w' tr ui claims ir :
  hostedDomains c ≠ [] → "" ∉ hostedDomains c →
  resolve c inv w = (out, w', tr) →
  ui ∈ userInfos tr → UserInfo_Claims ui = inr claims →
  snd (claimString claims "hd") = false →
  ir ∈ introspected tr → emailPasses c claims ir →
  out = Returned (startIdentity inv) (Some (ErrUnexpectedHD "")).
Proof.
  intros Hne Hout Hrun Hui Hclaims Hhd Hir Hpass.
  assert (Hempty : fst (claimString claims "hd") = "").
  { unfold claimString in *. by repeat case_match. }
  pose proof (checkHostedDomain_spec c claims Hne) as Hcheck.
  rewrite Hempty, decide_False in Hcheck by done.
  apply resolve_path in Hrun
    as [[_ ->]|[(e & _ & _ & Hnone & _)|(pre & ctx & token & r & p & _ & _ & Htaken & -> & Hpui & Hpir)]].
  - by apply not_elem_of_nil in Hui.
  - rewrite Hnone in Hui. by apply not_elem_of_nil in Hui.
  - rewrite Hpui in Hui. rewrite Hpir in Hir. unfold returned.
    destruct p; simpl in *; singleton_members;
      destruct Htaken as (Hc & Htaken); rewrite Hclaims in Hc; injection Hc as <-.
    + destruct Htaken as (Hfound & Hscope). destruct Hpass; congruence.
    + destruct Htaken as (_ & Herr). congruence.
    + destruct Htaken as (_ & Hnone & _). congruence.
    + destruct Htaken as (_ & Hnone & _). congruence.
Qed.

(** A connector opened from a configuration that names the [email] scope, or
    no scope at all, requires an email: a resolution for an identity that
    is not a Service, whose userinfo has no string [email] claim, fails with
    the missing-email error. *)
Theorem opened_connector_requires_email cfg endpoint ext inv w out w' tr ui claims ir :
  "email" ∈ ConfigScopes cfg ∨ ConfigScopes cfg = [] →
  resolve (Open cfg endpoint ext) inv w = (out, w', tr) →
  ui ∈ userInfos tr → UserInfo_Claims ui = inr claims →
  snd (claimString claims "email") = false →
  ir ∈ introspected tr → IdentityType ir ≠ "Service" →
  out = Returned (startIdentity inv) (Some ErrMissingEmailClaim).
Proof.
  intros Hcfg Hrun Hui Hclaims Hemail Hir Hty.
  eapply resolve_missing_email; eauto. by apply Open_email_scope.
Qed.

(** ** Fetching the token *)

(** The calls of a resolver path start with the userinfo call and fetch no
    token. *)
Lemma pathTrace_shape ctx token perr p :
  ∃ answer rest,
    pathTrace ctx token perr p = EvUserInfo ctx token answer :: rest ∧
    ∀ ev, ev ∈ pathTrace ctx token perr p → isTokenFetch ev = false.
Proof.
  destruct p; simpl; eexists _, _; (split; [reflexivity|]);
    intros ev Hin; trace_member Hin; by subst.
Qed.

Lemma createIdentity_calls c ctx identity token r who w res w' tr :
  createIdentity c ctx identity token r who w = (res, w', tr) →
  ∃ answer rest,
    tr = EvUserInfo ctx token answer :: rest ∧
    ∀ ev, ev ∈ tr → isTokenFetch ev = false.
Proof.
  intros Hrun. apply createIdentity_run in Hrun as (p & perr & _ & _ & ->).
  apply pathTrace_shape.
Qed.

(** [Refresh], given a session blob that decodes, asks the token source for
    a token before anything else. The token it presents holds the stored
    refresh token and nothing else, and expired an hour before the call, so
    the token source has to redeem the refresh token. If the redemption
    fails, [Refresh] returns that error without calling userinfo; if it
    succeeds, the resolver runs on the token obtained. *)
Theorem Refresh_redeems_the_stored_refresh_token c ctx s identity cd w res w' tr :
  json_Unmarshal_ConnectorData (IdConnectorData identity) = inr cd →
  Refresh c ctx s identity w = (res, w', tr) →
  ∃ answer rest,
    tr = EvTokenSource ctx
           {| AccessToken := ""; TokenType := "";
              RefreshToken := stringOf (cdRefreshToken cd);
              Expiry := UnixNano (clock w - time_Hour) |} answer :: rest ∧
    clock w - time_Hour < clock w ∧
    match answer with
    | inl cause => res = (identity, Some (ErrRefreshToken cause)) ∧ rest = []
    | inr token => ∃ userinfoAnswer rest', rest = EvUserInfo ctx token userinfoAnswer :: rest'
    end.
Proof.
  intros Hcd. unfold Refresh. rewrite Hcd. unfold_M. simpl.
  match goal with |- context [oauth2_TokenSource_Token ?x ?y ?t w] =>
    destruct (oauth2_TokenSource_Token x y t w) as [[err|token] w1] eqn:Ets end; simpl.
  - intros [= <- <- <-]. eexists _, _. split; [reflexivity|].
    split; [unfold time_Hour; lia|]. by split.
  - destruct (createIdentity c ctx identity token None refreshCaller w1)
      as [[res' w2] tr2] eqn:Ecreate.
    intros [= <- <- <-]. eexists _, _. split; [reflexivity|].
    split; [unfold time_Hour; lia|].
    apply createIdentity_calls in Ecreate as (answer & rest & -> & _). by eexists _, _.
Qed.

(** The identity handed to [createIdentity] only comes back with an
    error: the calls, the error and the identity built do not depend on
    it. *)
Lemma createIdentity_ignores_identity c ctx identity1 identity2 token r who w id err w' tr :
  createIdentity c ctx identity1 token r who w = ((id, err), w', tr) →
  ∃ id', createIdentity c ctx identity2 token r who w = ((id', err), w', tr) ∧
         (err = None → id' = id).
Proof.
  rewrite !createIdentity_steps.
  destruct (provider_UserInfo ctx token w) as [[cause|ui] w1]; simpl.
  { intros Heq. simplify_eq. eexists. split; [reflexivity|discriminate]. }
  destruct (UserInfo_Claims ui) as [cause|claims]; simpl.
  { intros Heq. simplify_eq. eexists. split; [reflexivity|discriminate]. }
  destruct (introspect c ctx token w1) as [[cause|ir] w2]; simpl.
  { intros Heq. simplify_eq. eexists. split; [reflexivity|discriminate]. }
  destruct (negb (snd (resolveEmail claims ir)) && hasEmailScope (Scopes (oauth2Config c))).
  { intros Heq. simplify_eq. eexists. split; [reflexivity|discriminate]. }
  destruct (checkHostedDomain c claims) as [e|].
  { intros Heq. simplify_eq. eexists. split; [reflexivity|discriminate]. }
  destruct (LegacyGetUserByUUID (AccessToken token) (Sub ir) w2) as [res w3].
  destruct (json_Marshal_ConnectorData (sessionData c token r who ir (fst res)));
    intros Heq; simplify_eq; eexists; (split; [reflexivity|done]).
Qed.

(** [Refresh] reads nothing but the session blob off the identity it is
    given: two identities with the same blob lead to the same calls, the
    same error and, on success, the same identity. *)
Theorem Refresh_reads_only_the_session_blob c ctx s identity1 identity2 w id err w' tr :
  IdConnectorData identity1 = IdConnectorData identity2 →
  Refresh c ctx s identity1 w = ((id, err), w', tr) →
  ∃ id', Refresh c ctx s identity2 w = ((id', err), w', tr) ∧ (err = None → id' = id).
Proof.
  intros Hblob. unfold Refresh. rewrite Hblob. unfold_M.
  destruct (json_Unmarshal_ConnectorData (IdConnectorData identity2)) as [cause|cd]; simpl.
  { intros Heq. simplify_eq. eexists. split; [reflexivity|discriminate]. }
  match goal with |- context [oauth2_TokenSource_Token ?x ?y ?t w] =>
    destruct (oauth2_TokenSource_Token x y t w) as [[cause|token] w1] end; simpl.
  { intros Heq. simplify_eq. eexists. split; [reflexivity|discriminate]. }
  destruct (createIdentity c ctx identity1 token None refreshCaller w1)
    as [[[id1 err1] w2] tr2] eqn:Erun.
  intros Heq. simplify_eq.
  apply (createIdentity_ignores_identity _ _ _ identity2) in Erun as (id' & -> & Hid).
  exists id'. by split.
Qed.


(** The errors of the bearer exchange, in the order the callback checks
    for them: a transport error, an error reading the body, a status other
    than 200 (reported with the status line and the body), a body that does
    not decode. Each ends the callback with the zero identity and no further
    call. Otherwise the resolver starts, on the token made of the response. *)
Theorem saml_exchange_outcomes c s r w out w' tr ctx req answer :
  isSAML c = true →
  HandleCallback c s r w = (out, w', tr) →
  EvDoRequest ctx req answer ∈ tr →
  match answer with
  | inl cause =>
      out = Returned Identity_zero (Some (ErrUpstream cause)) ∧
      tr = [EvDoRequest ctx req answer]
  | inr resp =>
      match BodyRead resp with
      | inl cause =>
          out = Returned Identity_zero (Some (ErrUpstream cause)) ∧
          tr = [EvDoRequest ctx req answer]
      | inr body =>
          if StatusCode resp =? 200 then
            match json_Unmarshal_tokenResponse body with
            | inl cause =>
                out = Returned Identity_zero (Some (ErrTokenResponse cause)) ∧
                tr = [EvDoRequest ctx req answer]
            | inr tresp =>
                ∃ userinfoAnswer rest,
                  tr = EvDoRequest ctx req answer ::
                       EvUserInfo ctx
                         {| AccessToken := trAccessToken tresp;
                            TokenType := trTokenType tresp;
                            RefreshToken := trRefreshToken tresp;
                            Expiry := UnixNano (trExpiresIn tresp * 1000000000) |}
                         userinfoAnswer :: rest
            end
          else
            out = Returned Identity_zero (Some (ErrTokenStatus (Status resp) body)) ∧
            tr = [EvDoRequest ctx req answer]
      end
  end.
Proof.
  intros Hsaml. unfold HandleCallback. unfold_M.
  destruct (negb (Values_Get (URL_Query (ReqURL r)) "error" =? "")%string).
  { intros [= <- <- <-] Hin. by apply not_elem_of_nil in Hin. }
  rewrite Hsaml. destruct (http_NewRequest _ _ _) as [req0|].
  2:{ intros [= <- <- <-] Hin. by apply not_elem_of_nil in Hin. }
  match goal with |- context [doRequest ?x ?y w] =>
    destruct (doRequest x y w) as [answer0 w1] eqn:Ereq end.
  assert (Hone : ∀ ev, EvDoRequest ctx req answer ∈ [ev] → ev = EvDoRequest ctx req answer).
  { intros ev Hin. by apply list_elem_of_singleton in Hin. }
  destruct answer0 as [cause|resp]; simpl.
  { intros [= <- <- <-] Hin. apply Hone in Hin. by simplify_eq. }
  destruct (BodyRead resp) as [cause|body] eqn:Ebody; simpl.
  { intros [= <- <- <-] Hin. apply Hone in Hin. simplify_eq. by rewrite Ebody. }
  destruct (StatusCode resp =? http_StatusOK) eqn:Ecode; simpl.
  2:{ intros [= <- <- <-] Hin. apply Hone in Hin. simplify_eq.
      rewrite Ebody. unfold http_StatusOK in Ecode. by rewrite Ecode. }
  destruct (json_Unmarshal_tokenResponse body) as [cause|tresp] eqn:Ejson; simpl.
  { intros [= <- <- <-] Hin. apply Hone in Hin. simplify_eq.
    rewrite Ebody. unfold http_StatusOK in Ecode. by rewrite Ecode, Ejson. }
  destruct (createIdentity _ _ _ _ _ _ w1) as [[res w2] tr2] eqn:Ecreate.
  intros [= <- <- <-] Hin.
  apply createIdentity_calls in Ecreate as (userinfoAnswer & rest & -> & Hquiet).
  apply elem_of_cons in Hin as [Hin|Hin].
  - simplify_eq. rewrite Ebody. unfold http_StatusOK in Ecode. rewrite Ecode, Ejson.
    eexists _, _. unfold tokenOfResponse, time_Unix. by rewrite Z.add_0_r.
  - apply Hquiet in Hin. discriminate.
Qed.

(** A callback fetches its token the way of its mode and once at most: in
    SAML mode it never calls the authorization-code exchange, outside SAML
    mode it never posts to the token endpoint, and in both only the first
    call of the trace can be a token fetch. *)
Theorem callback_fetches_one_token c s r w out w' tr :
  HandleCallback c s r w = (out, w', tr) →
  (isSAML c = true → ∀ ev, ev ∈ tr → isCodeExchange ev = false) ∧
  (isSAML c = false → ∀ ev, ev ∈ tr → isBearerExchange ev = false) ∧
  (∀ ev, ev ∈ tail tr → isTokenFetch ev = false).
Proof.
  assert (Hquiet : ∀ ev, isTokenFetch ev = false →
                         isCodeExchange ev = false ∧ isBearerExchange ev = false).
  { intros ev. by destruct ev. }
  assert (Hnone : (isSAML c = true → ∀ ev, ev ∈ @nil Event → isCodeExchange ev = false) ∧
                  (isSAML c = false → ∀ ev, ev ∈ @nil Event → isBearerExchange ev = false) ∧
                  (∀ ev, ev ∈ tail (@nil Event) → isTokenFetch ev = false)).
  { repeat split; simpl; intros;
      by match goal with H : _ ∈ [] |- _ => apply not_elem_of_nil in H end. }
  assert (Hshape : ∀ first rest,
             (∀ ev, ev ∈ rest → isTokenFetch ev = false) →
             (isSAML c = true → isCodeExchange first = false) →
             (isSAML c = false → isBearerExchange first = false) →
             (isSAML c = true → ∀ ev, ev ∈ first :: rest → isCodeExchange ev = false) ∧
             (isSAML c = false → ∀ ev, ev ∈ first :: rest → isBearerExchange ev = false) ∧
             (∀ ev, ev ∈ tail (first :: rest) → isTokenFetch ev = false)).
  { intros first rest Hrest Hcode Hbearer. split; [|split].
    - intros Hsaml ev Hin. apply elem_of_cons in Hin as [->|Hin]; [by apply Hcode|].
      by apply Hquiet, Hrest.
    - intros Hsaml ev Hin. apply elem_of_cons in Hin as [->|Hin]; [by apply Hbearer|].
      by apply Hquiet, Hrest.
    - exact Hrest. }
  assert (Hnil : ∀ ev, ev ∈ @nil Event → isTokenFetch ev = false).
  { intros ev Hin. by apply not_elem_of_nil in Hin. }
  unfold HandleCallback. unfold_M.
  destruct (negb (Values_Get (URL_Query (ReqURL r)) "error" =? "")%string).
  { by intros [= <- <- <-]. }
  destruct (isSAML c) eqn:Hsaml.
  - destruct (http_NewRequest _ _ _) as [req|]; [|by intros [= <- <- <-]].
    match goal with |- context [doRequest ?x ?y w] =>
      destruct (doRequest x y w) as [[cause|resp] w1] end; simpl.
    { intros [= <- <- <-]. by apply Hshape. }
    destruct (BodyRead resp) as [cause|body]; simpl.
    { intros [= <- <- <-]. by apply Hshape. }
    destruct (StatusCode resp =? http_StatusOK); simpl.
    2:{ intros [= <- <- <-]. by apply Hshape. }
    destruct (json_Unmarshal_tokenResponse body) as [cause|tresp]; simpl.
    { intros [= <- <- <-]. by apply Hshape. }
    destruct (createIdentity _ _ _ _ _ _ w1) as [[res w2] tr2] eqn:Ecreate.
    intros [= <- <- <-].
    apply createIdentity_calls in Ecreate as (answer & rest & _ & Hrest). by apply Hshape.
  - destruct (oauth2_Exchange _ _ _ w) as [[cause|token] w1]; simpl.
    { intros [= <- <- <-]. by apply Hshape. }
    destruct (createIdentity _ _ _ _ _ _ w1) as [[res w2] tr2] eqn:Ecreate.
    intros [= <- <- <-].
    apply createIdentity_calls in Ecreate as (answer & rest & _ & Hrest). by apply Hshape.
Qed.

(** Outside SAML mode, a callback without an error parameter exchanges the
    [code] parameter of the request before anything else, and never
    panics. If the exchange fails the callback returns that error with the
    zero identity and makes no other call; if it succeeds the resolver runs
    on the token obtained. *)
Theorem code_exchange c s r w out w' tr :
  isSAML c = false →
  Values_Get (URL_Query (ReqURL r)) "error" = "" →
  HandleCallback c s r w = (out, w', tr) →
  out ≠ Panicked ∧
  ∃ answer rest,
    tr = EvExchange (ReqContext r) (Values_Get (URL_Query (ReqURL r)) "code") answer :: rest ∧
    match answer with
    | inl cause => out = Returned Identity_zero (Some (ErrGetToken cause)) ∧ rest = []
    | inr token =>
        ∃ userinfoAnswer rest', rest = EvUserInfo (ReqContext r) token userinfoAnswer :: rest'
    end.
Proof.
  intros Hsaml Herr. unfold HandleCallback. rewrite Herr, Hsaml. unfold_M. simpl.
  destruct (oauth2_Exchange _ _ _ w) as [[cause|token] w1]; simpl.
  { intros [= <- <- <-]. split; [discriminate|]. by eexists _, _. }
  destruct (createIdentity _ _ _ _ _ _ w1) as [[res w2] tr2] eqn:Ecreate.
  intros [= <- <- <-]. split; [discriminate|].
  apply createIdentity_calls in Ecreate as (answer & rest & -> & _).
  eexists _, _. split; [reflexivity|]. by eexists _, _.
Qed.

End Properties.

(** * Scenarios

    The properties above at the scripted collaborators. *)

#[local] Existing Instance Scripted.carriers.
#[local] Existing Instance Scripted.env.

Import Scripted.

(** Run the scenario of the goal's first conjunct. *)
Ltac run_scenario :=
  match goal with
  | |- ?H ∧ _ =>
      let Hrun := fresh "Hrun" in
      assert (Hrun : H) by (vm_compute; reflexivity);
      split; [exact Hrun|]
  end.

(** Read a member off the trace of the goal's first conjunct. *)
Ltac read_member :=
  match goal with
  | |- ?H ∧ _ =>
      let Hin := fresh "Hin" in
      assert (Hin : H) by (vm_compute; constructor);
      split; [exact Hin|]
  end.

(** A SAML callback with [assertion=XYZ]: the userinfo claims say the subject
    is [userinfo-sub], introspection says [u-123]. *)
Lemma resolved_UserID_witness :
  ∃ id w' tr,
    resolve (connector samlLogin []) (Callback scopes (request "assertion=XYZ&state=s1"))
      (world (annClaims "acme.com") "User") = (Returned id None, w', tr) ∧
    (∃ ir, introspected tr = [ir] ∧ UserID id = Sub ir) ∧
    annClaims "acme.com" !! "sub" = Some (JString "userinfo-sub") ∧
    UserID id = "u-123".
Proof.
  eexists _, _, _. run_scenario.
  split; [exact (resolved_UserID_is_introspection_Sub _ _ _ _ _ _ Hrun)|].
  split; reflexivity.
Defined.

(** A token exchange for a Service identity whose userinfo has an email. *)
Lemma Service_email_witness :
  ∃ id w' tr,
    resolve (connector "" []) (Exchanging tt "urn:ietf:params:oauth:token-type:access_token" "a1")
      (world (annClaims "acme.com") "Service") = (Returned id None, w', tr) ∧
    introspectionOf "Service" ∈ introspected tr ∧
    annClaims "acme.com" !! "email" = Some (JString "ann@acme.com") ∧
    Email id = "u-123".
Proof.
  eexists _, _, _. run_scenario. read_member.
  split; [reflexivity|].
  exact (proj2 (Service_email_is_introspection_Sub _ _ _ _ _ _ _ _ Hrun Hin eq_refl) eq_refl).
Defined.

(** A token exchange whose userinfo has no email, under the default scopes. *)
Lemma missing_email_claim_witness :
  ∃ out w' tr,
    resolve (connector "" []) (Exchanging tt "urn:ietf:params:oauth:token-type:access_token" "a1")
      (world noEmailClaims "User") = (out, w', tr) ∧
    inr noEmailClaims ∈ userInfos tr ∧
    introspectionOf "User" ∈ introspected tr ∧
    "email" ∈ Scopes (oauth2Config (connector "" [])) ∧
    noEmailClaims !! "email" = None ∧
    out = Returned Identity_zero (Some ErrMissingEmailClaim).
Proof.
  eexists _, _, _. run_scenario. read_member. read_member.
  assert (Hscope : "email" ∈ Scopes (oauth2Config (connector "" [])))
    by (apply hasEmailScope_true; reflexivity).
  split; [exact Hscope|]. split; [reflexivity|].
  refine (missing_email_claim_fails _ _ _ _ _ _ _ _ _ Hrun Hscope Hin eq_refl eq_refl Hin0 _).
  discriminate.
Defined.

(** A token exchange whose userinfo has a number for an email. *)
Lemma non_string_email_claim_witness :
  ∃ out w' tr,
    resolve (connector "" []) (Exchanging tt "urn:ietf:params:oauth:token-type:access_token" "a1")
      (world numericEmailClaims "User") = (out, w', tr) ∧
    inr numericEmailClaims ∈ userInfos tr ∧
    introspectionOf "User" ∈ introspected tr ∧
    "email" ∈ Scopes (oauth2Config (connector "" [])) ∧
    numericEmailClaims !! "email" = Some (JNumber "42") ∧
    out = Returned Identity_zero (Some ErrMissingEmailClaim).
Proof.
  eexists _, _, _. run_scenario. read_member. read_member.
  assert (Hscope : "email" ∈ Scopes (oauth2Config (connector "" [])))
    by (apply hasEmailScope_true; reflexivity).
  split; [exact Hscope|]. split; [reflexivity|].
  refine (non_string_email_claim_is_missing _ _ _ _ _ _ _ _ _ _
            Hrun Hscope Hin eq_refl eq_refl _ Hin0 _); discriminate.
Defined.

(** The allow-list [acme.com]: a code callback for a user of [acme.com]
    succeeds, one for a user of [other.com] fails with the domain error. *)
Lemma hosted_domain_witness :
  (∃ id w' tr,
      resolve (connector "" ["acme.com"]) (Callback scopes (request "code=c1&state=s1"))
        (world (annClaims "acme.com") "User") = (Returned id None, w', tr) ∧
      inr (annClaims "acme.com") ∈ userInfos tr ∧
      checkHostedDomain (connector "" ["acme.com"]) (annClaims "acme.com") = None) ∧
  (∃ out w' tr,
      resolve (connector "" ["acme.com"]) (Callback scopes (request "code=c1&state=s1"))
        (world (annClaims "other.com") "User") = (out, w', tr) ∧
      inr (annClaims "other.com") ∈ userInfos tr ∧
      introspectionOf "User" ∈ introspected tr ∧
      checkHostedDomain (connector "" ["acme.com"]) (annClaims "other.com")
        = Some (ErrUnexpectedHD "other.com") ∧
      out = Returned Identity_zero (Some (ErrUnexpectedHD "other.com"))).
Proof.
  assert (Hne : hostedDomains (connector "" ["acme.com"]) ≠ []) by discriminate.
  split.
  - eexists _, _, _. run_scenario. read_member.
    destruct (hosted_domain_allow_list _ _ _ _ _ _ _ _ Hne Hrun Hin eq_refl)
      as (_ & _ & Honly & _).
    apply (hosted_domain_allow_list _ _ _ _ _ _ _ _ Hne Hrun Hin eq_refl).
    exact (Honly _ eq_refl).
  - eexists _, _, _. run_scenario. read_member. read_member.
    assert (Hout : "other.com" ∉ hostedDomains (connector "" ["acme.com"])).
    { intros Hmem. apply list_elem_of_singleton in Hmem. discriminate. }
    destruct (hosted_domain_allow_list _ _ _ _ _ _ _ _ Hne Hrun Hin eq_refl)
      as (_ & Hcheck & _ & _ & Hfails).
    split; [exact (Hcheck Hout)|].
    apply (Hfails Hout _ Hin0). left. reflexivity.
Defined.

(** The SAML scenario: the callback carries [assertion=XYZ] and the token
    endpoint answers with the refresh token [r1]. *)
Lemma session_blob_witness :
  ∃ id w' tr,
    resolve (connector samlLogin []) (Callback scopes (request "assertion=XYZ&state=s1"))
      (world (annClaims "acme.com") "User") = (Returned id None, w', tr) ∧
    isSAML (connector samlLogin []) = true ∧
    json_Unmarshal_tokenResponse (String.list_byte_of_string tokenBody) = inr tokenDecoded ∧
    ∃ cd blob,
      IdConnectorData id = Some blob ∧
      json_Marshal_ConnectorData cd = inr blob ∧
      cdAssertion cd = bytesOf "XYZ" ∧
      cdRefreshToken cd = bytesOf "r1".
Proof.
  eexists _, _, _. run_scenario.
  split; [reflexivity|]. split; [reflexivity|].
  destruct (session_blob_assertion_and_refresh_token _ _ _ _ _ _ Hrun)
    as (cd & blob & Hdata & Hblob & Hsaml).
  destruct (proj1 Hsaml eq_refl)
    as (Hassertion & req & resp & body & tresp & Hev & Hbody & Hjson & Hrefresh).
  exists cd, blob. split; [exact Hdata|]. split; [exact Hblob|].
  split; [exact Hassertion|].
  injection Hev as _ <-. simpl in Hbody. injection Hbody as <-.
  vm_compute in Hjson. injection Hjson as <-. exact Hrefresh.
Defined.

(** A refresh does not store an assertion, in SAML mode either. *)
Lemma session_blob_refresh_example :
  ∃ id w' tr cd blob,
    resolve (connector samlLogin [])
      (Refreshing tt scopes
         {| UserID := "u-123"; IdUsername := "ann"; Email := "ann@acme.com";
            EmailVerified := true;
            IdConnectorData :=
              match encodeConnectorData
                      (sessionData (connector samlLogin []) refreshed None createCaller
                         (introspectionOf "User") None) with
              | inr blob => Some blob
              | inl _ => None
              end |})
      (world (annClaims "acme.com") "User") = (Returned id None, w', tr) ∧
    IdConnectorData id = Some blob ∧
    json_Marshal_ConnectorData cd = inr blob ∧
    cdAssertion cd = None ∧ cdRefreshToken cd = bytesOf "r2".
Proof.
  eexists _, _, _,
    (sessionData (connector samlLogin []) refreshed None refreshCaller
       (introspectionOf "User") (Some ("Ann" : @Profile Scripted.carriers))), _.
  split; [vm_compute; reflexivity|].
  split; [reflexivity|]. split; [vm_compute; reflexivity|]. split; reflexivity.
Qed.

(** The upstream refused the login. *)
Lemma callback_error_witness :
  Values_Get (URL_Query (ReqURL (request "error=access_denied&error_description=user+cancelled")))
    "error" = "access_denied" ∧
  HandleCallback (connector samlLogin []) scopes
    (request "error=access_denied&error_description=user+cancelled")
    (world (annClaims "acme.com") "User") =
  (Returned Identity_zero (Some (OAuth2Error "access_denied" "user cancelled")),
   world (annClaims "acme.com") "User", []) ∧
  oauth2Error_Error "access_denied" "user cancelled" = "access_denied: user cancelled".
Proof.
  split; [reflexivity|]. split; [|reflexivity].
  refine (callback_error_parameter (connector samlLogin []) scopes
            (request "error=access_denied&error_description=user+cancelled")
            (world (annClaims "acme.com") "User") _).
  discriminate.
Defined.

(** C7 fails on the code: [Refresh], given an identity whose session blob is
    nil, returns an error together with that identity, which is not the zero
    identity. *)
Lemma Refresh_error_returns_given_identity :
  Refresh (connector "" []) tt scopes staleIdentity (world (annClaims "acme.com") "User") =
  ((staleIdentity, Some (ErrUnmarshalConnectorData "unexpected end of JSON input")),
   world (annClaims "acme.com") "User", []) ∧
  UserID staleIdentity = "u-123" ∧
  staleIdentity ≠ Identity_zero.
Proof. split; [reflexivity|]. split; [reflexivity|discriminate]. Qed.

(** The same refresh, and a login with a callback URL that is not the
    configured one. *)
Lemma error_returns_the_starting_identity_witness :
  (∃ url e,
      LoginURL (connector "" []) scopes "https://evil.example.com/callback" "s1"
        = Returned url (Some e) ∧ url = "") ∧
  (∃ id e w' tr,
      resolve (connector "" []) (Refreshing tt scopes staleIdentity)
        (world (annClaims "acme.com") "User") = (Returned id (Some e), w', tr) ∧
      id = staleIdentity).
Proof.
  split.
  - eexists _, _. run_scenario.
    exact (proj1 (error_returns_the_starting_identity _) _ _ _ _ _ Hrun).
  - eexists _, _, _, _. run_scenario.
    refine (proj2 (error_returns_the_starting_identity _) _ _ _ _ _ _ Hrun _).
    discriminate.
Defined.

(** C8 fails on the code: in SAML mode and for the configured callback URL,
    a SAML login URL that does not parse makes [LoginURL] return an error
    and no URL. *)
Lemma LoginURL_saml_unparsable_login_URL :
  isSAML (connector ":" []) = true ∧
  redirectURI (connector ":" []) = callbackURL ∧
  LoginURL (connector ":" []) scopes callbackURL "s1" =
  Returned "" (Some (ErrInvalidSAMLLoginURL "missing protocol scheme")).
Proof. split; [reflexivity|]. split; reflexivity. Qed.

(** The login URL of the SAML scenario. *)
Lemma LoginURL_saml_witness :
  isSAML (connector samlLogin []) = true ∧
  (∃ q qcb : Values,
      LoginURL (connector samlLogin []) scopes callbackURL "s1" =
        Returned (URL_String (URL_withRawQuery (scriptedURL (samlLogin, ""))
                                (Values_Encode q))) None ∧
      q !! "redirect_uri" =
        Some [URL_String (URL_withRawQuery (scriptedURL (callbackURL, ""))
                            (Values_Encode qcb))] ∧
      qcb !! "state" = Some ["s1"]) ∧
  LoginURL (connector samlLogin []) scopes callbackURL "s1" =
  Returned
    "https://iam.example.com/authorize/saml2/login?redirect_uri=https%3A%2F%2Fdex.example.com%2Fcallback%3Fstate%3Ds1"
    None.
Proof.
  split; [reflexivity|]. split; [|vm_compute; reflexivity].
  assert (Hcbu : url_Parse callbackURL = inr (scriptedURL (callbackURL, "")))
    by (vm_compute; reflexivity).
  assert (Hu : url_Parse (samlLoginURL (connector samlLogin []))
               = inr (scriptedURL (samlLogin, ""))) by (vm_compute; reflexivity).
  pose proof (LoginURL_saml (connector samlLogin []) scopes callbackURL "s1"
                (scriptedURL (callbackURL, "")) eq_refl eq_refl Hcbu) as Hlogin.
  rewrite Hu in Hlogin.
  destruct Hlogin as (q & qcb & Hurl & Hredirect & _ & Hstate & _).
  exists q, qcb. split; [exact Hurl|]. split; [exact Hredirect|exact Hstate].
Defined.

(** * Further scenarios *)

(** Evaluate the goal's first conjunct, a closed equation. *)
Ltac evaluate :=
  match goal with
  | |- ?H ∧ _ =>
      let Hrun := fresh "Hrun" in
      assert (Hrun : H) by (vm_compute; reflexivity);
      split; [exact Hrun|]
  end.

(** Find the member of the goal's first conjunct in the list written there. *)
Ltac find_member :=
  match goal with
  | |- ?H ∧ _ =>
      let Hin := fresh "Hin" in
      assert (Hin : H)
        by (unfold annCalls, userinfoCall, introspectCall, profileCall; cbn;
            repeat constructor);
      split; [exact Hin|]
  end.

(** A login in OAuth2 mode with one hosted domain and offline access. *)
Lemma LoginURL_oauth2_witness :
  LoginURL (connector "" ["acme.com"]) scopes callbackURL "s1" =
    Returned
      "https://iam.example.com/authorize/oauth2/authorize?access_type=offline&client_id=dex&hd=acme.com&prompt=consent&redirect_uri=https%3A%2F%2Fdex.example.com%2Fcallback&response_type=code&scope=openid+profile+email+groups&state=s1"
      None ∧
  isSAML (connector "" ["acme.com"]) = false ∧
  redirectURI (connector "" ["acme.com"]) = callbackURL ∧
  filter (λ opt, fst opt = "hd") (authCodeOptions (connector "" ["acme.com"]) scopes)
    = [("hd", "acme.com")] ∧
  filter (λ opt, fst opt ≠ "hd") (authCodeOptions (connector "" ["acme.com"]) scopes)
    = [("access_type", "offline"); ("prompt", "consent")].
Proof.
  evaluate.
  destruct (LoginURL_oauth2 (connector "" ["acme.com"]) scopes callbackURL "s1"
              eq_refl eq_refl) as (Hurl & Hhd & Hoffline).
  split; [reflexivity|]. split; [reflexivity|].
  split; [exact Hhd|exact Hoffline].
Defined.

(** A token exchange for the subject token [a1]. *)
Lemma introspection_follows_userinfo_witness :
  resolve (connector "" []) (Exchanging tt tokenType "a1") annWorld =
    (Returned (annIdentity "ann@acme.com" [""; "a1"; ""; "u-123"; "ann"; "User"; "Ann"]) None,
     annWorld, annCalls subjectBearer "acme.com") ∧
  introspectCall subjectBearer "User" ∈ annCalls subjectBearer "acme.com" ∧
  ∃ ui claims before after,
    UserInfo_Claims ui = inr claims ∧
    annCalls subjectBearer "acme.com"
    = (before ++ EvUserInfo tt subjectBearer (inr ui)
              :: introspectCall subjectBearer "User" :: after)%list.
Proof.
  evaluate. find_member.
  exact (introspection_follows_userinfo _ _ _ _ _ _ _ _ _ Hrun Hin).
Defined.

(** The userinfo endpoint is down. *)
Lemma userinfo_failure_witness :
  resolve (connector "" []) (Exchanging tt tokenType "a1")
    (withUserinfo (inl "503 Service Unavailable") annWorld) =
    (Returned Identity_zero (Some (ErrUserInfo "503 Service Unavailable")),
     withUserinfo (inl "503 Service Unavailable") annWorld,
     [EvUserInfo tt subjectBearer (inl "503 Service Unavailable")]) ∧
  EvUserInfo tt subjectBearer (inl "503 Service Unavailable") ∈
    [EvUserInfo tt subjectBearer (inl "503 Service Unavailable")] ∧
  ∀ ev, ev ∈ [EvUserInfo tt subjectBearer (inl "503 Service Unavailable")] →
        isTokenFetch ev = true ∨ ev = EvUserInfo tt subjectBearer (inl "503 Service Unavailable").
Proof.
  evaluate. find_member.
  assert (Hbad : ∀ (ui : UserInfo) (claims : Claims),
             @inl string UserInfo "503 Service Unavailable" = inr ui →
             UserInfo_Claims ui ≠ inr claims) by (intros ui claims [=]).
  exact (proj2 (userinfo_failure_is_fatal _ _ _ _ _ _ _ _ _ Hrun Hin Hbad)).
Defined.

(** The introspection endpoint rejects the token. *)
Lemma introspection_failure_witness :
  resolve (connector "" []) (Exchanging tt tokenType "a1")
    (withIntrospection (inl "401 Unauthorized") annWorld) =
    (Returned Identity_zero (Some (ErrIntrospect "401 Unauthorized")),
     withIntrospection (inl "401 Unauthorized") annWorld,
     [userinfoCall subjectBearer (annClaims "acme.com");
      EvIntrospect tt subjectBearer (inl "401 Unauthorized")]) ∧
  EvIntrospect tt subjectBearer (inl "401 Unauthorized") ∈
    [userinfoCall subjectBearer (annClaims "acme.com");
     EvIntrospect tt subjectBearer (inl "401 Unauthorized")] ∧
  profileLookups [userinfoCall subjectBearer (annClaims "acme.com");
                  EvIntrospect tt subjectBearer (inl "401 Unauthorized")] = [].
Proof.
  evaluate. find_member.
  exact (proj1 (proj2 (introspection_failure_is_fatal _ _ _ _ _ _ _ _ _ Hrun Hin))).
Defined.

(** The profile of Ann is looked up with the subject token. *)
Lemma profile_lookup_comes_last_witness :
  resolve (connector "" []) (Exchanging tt tokenType "a1") annWorld =
    (Returned (annIdentity "ann@acme.com" [""; "a1"; ""; "u-123"; "ann"; "User"; "Ann"]) None,
     annWorld, annCalls subjectBearer "acme.com") ∧
  profileCall subjectBearer (Some "Ann", None) ∈ annCalls subjectBearer "acme.com" ∧
  profileLookups (annCalls subjectBearer "acme.com") = [("a1", "u-123")].
Proof.
  evaluate. find_member.
  destruct (profile_lookup_comes_last _ _ _ _ _ _ _ _ _ Hrun Hin)
    as (ctx & token & ui & claims & ir & _ & _ & _ & _ & _ & _ & _ & Hlookups).
  exact Hlookups.
Defined.

(** The profile service does not know the user. *)
Lemma profile_lookup_is_best_effort_witness :
  resolve (connector "" []) (Exchanging tt tokenType "a1")
    (withProfile (None, Some "404 Not Found") annWorld) =
    (Returned (annIdentity "ann@acme.com" [""; "a1"; ""; "u-123"; "ann"; "User"; ""]) None,
     withProfile (None, Some "404 Not Found") annWorld,
     [userinfoCall subjectBearer (annClaims "acme.com"); introspectCall subjectBearer "User";
      profileCall subjectBearer (None, Some "404 Not Found");
      EvLogError "failed to get user profile" "404 Not Found"]) ∧
  profileCall subjectBearer (None, Some "404 Not Found") ∈
    [userinfoCall subjectBearer (annClaims "acme.com"); introspectCall subjectBearer "User";
     profileCall subjectBearer (None, Some "404 Not Found");
     EvLogError "failed to get user profile" "404 Not Found"] ∧
  EvLogError "failed to get user profile" "404 Not Found" ∈
    [userinfoCall subjectBearer (annClaims "acme.com"); introspectCall subjectBearer "User";
     profileCall subjectBearer (None, Some "404 Not Found");
     EvLogError "failed to get user profile" "404 Not Found"].
Proof.
  evaluate. find_member.
  destruct (profile_lookup_is_best_effort _ _ _ _ _ _ _ _ _ _ Hrun Hin) as [Hlog _].
  exact (Hlog _ eq_refl).
Defined.

(** The calls of a refresh. *)
Lemma successful_resolution_calls_witness :
  resolve (connector "" []) (Refreshing tt scopes (sessionIdentity "u-123")) annWorld =
    (Returned (annIdentity "ann@acme.com" ["r2"; "a2"; ""; "u-123"; "ann"; "User"; "Ann"]) None,
     annWorld,
     EvTokenSource tt presented (inr refreshed) :: annCalls refreshed "acme.com") ∧
  ∃ pre ctx token r ui ir res,
    tokenFrom (connector "" []) (Refreshing tt scopes (sessionIdentity "u-123"))
      pre ctx token r ∧
    EvTokenSource tt presented (inr refreshed) :: annCalls refreshed "acme.com"
    = (pre ++ EvUserInfo ctx token (inr ui) :: EvIntrospect ctx token (inr ir)
           :: profileEvents token ir res)%list.
Proof.
  evaluate.
  exact (successful_resolution_calls _ _ _ _ _ _ Hrun).
Defined.

(** Ann is not a Service: her email is the userinfo claim. *)
Lemma email_of_other_identities_witness :
  resolve (connector "" []) (Exchanging tt tokenType "a1") annWorld =
    (Returned (annIdentity "ann@acme.com" [""; "a1"; ""; "u-123"; "ann"; "User"; "Ann"]) None,
     annWorld, annCalls subjectBearer "acme.com") ∧
  inr (annClaims "acme.com") ∈ userInfos (annCalls subjectBearer "acme.com") ∧
  introspectionOf "User" ∈ introspected (annCalls subjectBearer "acme.com") ∧
  annClaims "acme.com" !! "email" = Some (JString "ann@acme.com") ∧
  Email (annIdentity "ann@acme.com" [""; "a1"; ""; "u-123"; "ann"; "User"; "Ann"])
    = "ann@acme.com".
Proof.
  evaluate. find_member. find_member.
  assert (Hclaim : annClaims "acme.com" !! "email" = Some (JString "ann@acme.com"))
    by (vm_compute; reflexivity).
  split; [exact Hclaim|].
  assert (Hty : IdentityType (introspectionOf "User") ≠ "Service") by discriminate.
  pose proof (email_of_other_identities _ _ _ _ _ _ _ _ _ Hrun Hin eq_refl Hin0 Hty) as Hemail.
  rewrite Hclaim in Hemail. exact Hemail.
Defined.

Lemma resolved_Username_witness :
  resolve (connector "" []) (Exchanging tt tokenType "a1") annWorld =
    (Returned (annIdentity "ann@acme.com" [""; "a1"; ""; "u-123"; "ann"; "User"; "Ann"]) None,
     annWorld, annCalls subjectBearer "acme.com") ∧
  introspectionOf "User" ∈ introspected (annCalls subjectBearer "acme.com") ∧
  IdUsername (annIdentity "ann@acme.com" [""; "a1"; ""; "u-123"; "ann"; "User"; "Ann"])
    = Username (introspectionOf "User") ∧
  EmailVerified (annIdentity "ann@acme.com" [""; "a1"; ""; "u-123"; "ann"; "User"; "Ann"])
    = true.
Proof.
  evaluate. find_member.
  exact (resolved_Username_and_EmailVerified _ _ _ _ _ _ _ Hrun Hin).
Defined.

(** The session data of the SAML scenario. *)
Lemma session_blob_contents_witness :
  resolve (connector samlLogin []) (Callback scopes (request "assertion=XYZ&state=s1")) annWorld =
    (Returned (annIdentity "ann@acme.com" ["r1"; "a1"; "XYZ"; "u-123"; "ann"; "User"; "Ann"]) None,
     annWorld,
     EvDoRequest tt bearerRequest (tokenEndpoint annWorld) :: annCalls exchanged "acme.com") ∧
  ∃ cd blob ctx token ir,
    IdConnectorData (annIdentity "ann@acme.com" ["r1"; "a1"; "XYZ"; "u-123"; "ann"; "User"; "Ann"])
      = Some blob ∧
    json_Marshal_ConnectorData cd = inr blob ∧
    EvIntrospect ctx token (inr ir) ∈
      EvDoRequest tt bearerRequest (tokenEndpoint annWorld) :: annCalls exchanged "acme.com" ∧
    cdAccessToken cd = bytesOf (AccessToken token) ∧
    cdRefreshToken cd = bytesOf (RefreshToken token) ∧
    cdIntrospect cd = ir ∧
    cdGroups cd = [] ∧ cdTrustedIDPOrg cd = "" ∧
    cdAudienceTrustMap cd = ∅ ∧ cdTenantMap cd = ∅.
Proof.
  evaluate.
  exact (session_blob_contents _ _ _ _ _ _ Hrun).
Defined.

Lemma TokenIdentity_session_blob_witness :
  TokenIdentity (connector "" []) tt tokenType "a1" annWorld =
    ((annIdentity "ann@acme.com" [""; "a1"; ""; "u-123"; "ann"; "User"; "Ann"], None),
     annWorld, annCalls subjectBearer "acme.com") ∧
  ∃ cd blob,
    IdConnectorData (annIdentity "ann@acme.com" [""; "a1"; ""; "u-123"; "ann"; "User"; "Ann"])
      = Some blob ∧
    json_Marshal_ConnectorData cd = inr blob ∧
    cdAccessToken cd = bytesOf "a1" ∧
    cdRefreshToken cd = bytesOf "" ∧
    cdAssertion cd = None ∧
    stringOf (cdRefreshToken cd) = "".
Proof.
  evaluate.
  exact (TokenIdentity_session_blob _ _ _ _ _ _ _ _ Hrun).
Defined.

(** No allow-list: a user of another domain gets in. *)
Lemma empty_allow_list_witness :
  resolve (connector "" []) (Callback scopes (request "code=c1&state=s1"))
    (world (annClaims "other.com") "User") =
    (Returned (annIdentity "ann@acme.com" ["r2"; "a2"; ""; "u-123"; "ann"; "User"; "Ann"]) None,
     world (annClaims "other.com") "User",
     EvExchange tt "c1" (inr refreshed) :: annCalls refreshed "other.com") ∧
  hostedDomains (connector "" []) = [] ∧
  ∀ id hostedDomain,
    Returned (annIdentity "ann@acme.com" ["r2"; "a2"; ""; "u-123"; "ann"; "User"; "Ann"]) None
    ≠ Returned id (Some (ErrUnexpectedHD hostedDomain)).
Proof.
  evaluate. split; [reflexivity|].
  exact (empty_allow_list_accepts_every_domain (connector "" []) _ _ _ _ _ eq_refl Hrun).
Defined.

(** The allow-list [acme.com] and claims without [hd]. *)
Lemma missing_hd_claim_witness :
  resolve (connector "" ["acme.com"]) (Callback scopes (request "code=c1&state=s1"))
    (world noDomainClaims "User") =
    (Returned Identity_zero (Some (ErrUnexpectedHD "")),
     world noDomainClaims "User",
     [EvExchange tt "c1" (inr refreshed); userinfoCall refreshed noDomainClaims;
      introspectCall refreshed "User"]) ∧
  inr noDomainClaims ∈
    userInfos [EvExchange tt "c1" (inr refreshed); userinfoCall refreshed noDomainClaims;
               introspectCall refreshed "User"] ∧
  introspectionOf "User" ∈
    introspected [EvExchange tt "c1" (inr refreshed); userinfoCall refreshed noDomainClaims;
                  introspectCall refreshed "User"] ∧
  noDomainClaims !! "hd" = None ∧
  Returned Identity_zero (Some (ErrUnexpectedHD ""))
    = Returned (startIdentity (Callback scopes (request "code=c1&state=s1")))
        (Some (ErrUnexpectedHD "")).
Proof.
  evaluate. find_member. find_member.
  split; [vm_compute; reflexivity|].
  assert (Hne : hostedDomains (connector "" ["acme.com"]) ≠ []) by discriminate.
  assert (Hout : "" ∉ hostedDomains (connector "" ["acme.com"])).
  { intros Hmem. apply list_elem_of_singleton in Hmem. discriminate. }
  assert (Hhd : snd (claimString noDomainClaims "hd") = false) by (vm_compute; reflexivity).
  assert (Hpass : emailPasses (connector "" ["acme.com"]) noDomainClaims (introspectionOf "User"))
    by (left; vm_compute; reflexivity).
  exact (missing_hd_claim_is_the_empty_domain (connector "" ["acme.com"]) _ _ _ _ _ _ noDomainClaims _
           Hne Hout Hrun Hin eq_refl Hhd Hin0 Hpass).
Defined.

(** A configuration that names no scope. *)
Lemma opened_connector_requires_email_witness :
  resolve (Open (configured "" []) discovered
             {| IntrospectionEndpoint := "https://iam.example.com/authorize/oauth2/introspect" |})
    (Exchanging tt tokenType "a1") (world noEmailClaims "User") =
    (Returned Identity_zero (Some ErrMissingEmailClaim),
     world noEmailClaims "User",
     [userinfoCall subjectBearer noEmailClaims; introspectCall subjectBearer "User"]) ∧
  inr noEmailClaims ∈
    userInfos [userinfoCall subjectBearer noEmailClaims; introspectCall subjectBearer "User"] ∧
  introspectionOf "User" ∈
    introspected [userinfoCall subjectBearer noEmailClaims; introspectCall subjectBearer "User"] ∧
  ConfigScopes (configured "" []) = [] ∧
  Returned Identity_zero (Some ErrMissingEmailClaim)
    = Returned (startIdentity (Exchanging tt tokenType "a1")) (Some ErrMissingEmailClaim).
Proof.
  evaluate. find_member. find_member.
  split; [reflexivity|].
  assert (Hemail : snd (claimString noEmailClaims "email") = false) by (vm_compute; reflexivity).
  assert (Hty : IdentityType (introspectionOf "User") ≠ "Service") by discriminate.
  exact (opened_connector_requires_email (configured "" []) _ _ _ _ _ _ _ _ noEmailClaims _
           (or_intror eq_refl) Hrun Hin eq_refl Hemail Hin0 Hty).
Defined.

(** A refresh of the session whose refresh token is [r1]. *)
Lemma Refresh_redeems_witness :
  Refresh (connector "" []) tt scopes (sessionIdentity "u-123") annWorld =
    ((annIdentity "ann@acme.com" ["r2"; "a2"; ""; "u-123"; "ann"; "User"; "Ann"], None),
     annWorld,
     EvTokenSource tt presented (inr refreshed) :: annCalls refreshed "acme.com") ∧
  json_Unmarshal_ConnectorData (IdConnectorData (sessionIdentity "u-123")) =
    inr (@Build_ConnectorData carriers (bytesOf "r1") (bytesOf "a1") (bytesOf "") [] "" ∅ ∅
           {| Active := false; Sub := "u-123"; Username := "ann"; IdentityType := "User" |}
           "Ann") ∧
  ∃ answer rest,
    EvTokenSource tt presented (inr refreshed) :: annCalls refreshed "acme.com" =
      EvTokenSource tt
        {| AccessToken := ""; TokenType := "";
           RefreshToken := "r1";
           Expiry := UnixNano (clock annWorld - time_Hour) |} answer :: rest ∧
    clock annWorld - time_Hour < clock annWorld ∧
    match answer with
    | inl cause =>
        (annIdentity "ann@acme.com" ["r2"; "a2"; ""; "u-123"; "ann"; "User"; "Ann"], None)
          = (sessionIdentity "u-123", Some (ErrRefreshToken cause)) ∧ rest = []
    | inr token => ∃ userinfoAnswer rest', rest = EvUserInfo tt token userinfoAnswer :: rest'
    end.
Proof.
  evaluate. evaluate.
  exact (Refresh_redeems_the_stored_refresh_token _ _ _ _ _ _ _ _ _ Hrun0 Hrun).
Defined.

(** Two identities with the same session blob. *)
Lemma Refresh_reads_only_the_session_blob_witness :
  Refresh (connector "" []) tt scopes (sessionIdentity "someone-else") annWorld =
    ((annIdentity "ann@acme.com" ["r2"; "a2"; ""; "u-123"; "ann"; "User"; "Ann"], None),
     annWorld,
     EvTokenSource tt presented (inr refreshed) :: annCalls refreshed "acme.com") ∧
  IdConnectorData (sessionIdentity "someone-else") = IdConnectorData (sessionIdentity "u-123") ∧
  ∃ id',
    Refresh (connector "" []) tt scopes (sessionIdentity "u-123") annWorld =
      ((id', None), annWorld,
       EvTokenSource tt presented (inr refreshed) :: annCalls refreshed "acme.com") ∧
    (@None error = None →
     id' = annIdentity "ann@acme.com" ["r2"; "a2"; ""; "u-123"; "ann"; "User"; "Ann"]).
Proof.
  evaluate. split; [reflexivity|].
  exact (Refresh_reads_only_the_session_blob _ _ _ (sessionIdentity "someone-else") (sessionIdentity "u-123") _ _ _ _ _ eq_refl Hrun).
Defined.


(** The token endpoint refuses the assertion. *)
Lemma saml_exchange_outcomes_witness :
  HandleCallback (connector samlLogin []) scopes (request "assertion=XYZ&state=s1")
    (withTokenEndpoint (inr refusal) annWorld) =
    (Returned Identity_zero
       (Some (ErrTokenStatus "401 Unauthorized" (String.list_byte_of_string "invalid assertion"))),
     withTokenEndpoint (inr refusal) annWorld,
     [EvDoRequest tt bearerRequest (inr refusal)]) ∧
  EvDoRequest tt bearerRequest (inr refusal) ∈ [EvDoRequest tt bearerRequest (inr refusal)] ∧
  isSAML (connector samlLogin []) = true ∧
  (Returned Identity_zero
     (Some (ErrTokenStatus "401 Unauthorized" (String.list_byte_of_string "invalid assertion")))
   = Returned Identity_zero
       (Some (ErrTokenStatus (Status refusal) (String.list_byte_of_string "invalid assertion"))) ∧
   [EvDoRequest tt bearerRequest (inr refusal)]
   = [@EvDoRequest carriers tt bearerRequest (inr refusal)]).
Proof.
  evaluate. find_member. split; [reflexivity|].
  exact (saml_exchange_outcomes (connector samlLogin []) _ _ _ _ _ _ _ _ _ eq_refl Hrun Hin).
Defined.

(** The calls of the SAML scenario: one bearer exchange, then the resolver. *)
Lemma callback_fetches_one_token_witness :
  HandleCallback (connector samlLogin []) scopes (request "assertion=XYZ&state=s1") annWorld =
    (Returned (annIdentity "ann@acme.com" ["r1"; "a1"; "XYZ"; "u-123"; "ann"; "User"; "Ann"]) None,
     annWorld,
     EvDoRequest tt bearerRequest (tokenEndpoint annWorld) :: annCalls exchanged "acme.com") ∧
  (isSAML (connector samlLogin []) = true →
   ∀ ev, ev ∈ EvDoRequest tt bearerRequest (tokenEndpoint annWorld)
                :: annCalls exchanged "acme.com" →
         isCodeExchange ev = false) ∧
  (isSAML (connector samlLogin []) = false →
   ∀ ev, ev ∈ EvDoRequest tt bearerRequest (tokenEndpoint annWorld)
                :: annCalls exchanged "acme.com" →
         isBearerExchange ev = false) ∧
  (∀ ev, ev ∈ tail (EvDoRequest tt bearerRequest (tokenEndpoint annWorld)
                      :: annCalls exchanged "acme.com") →
         isTokenFetch ev = false).
Proof.
  evaluate.
  exact (callback_fetches_one_token _ _ _ _ _ _ _ Hrun).
Defined.

(** The authorization code was already used. *)
Lemma code_exchange_witness :
  HandleCallback (connector "" []) scopes (request "code=c1&state=s1")
    (withCodeExchange (inl "invalid_grant") annWorld) =
    (Returned Identity_zero (Some (ErrGetToken "invalid_grant")),
     withCodeExchange (inl "invalid_grant") annWorld,
     [EvExchange tt "c1" (inl "invalid_grant")]) ∧
  Values_Get (URL_Query (ReqURL (request "code=c1&state=s1"))) "error" = "" ∧
  isSAML (connector "" []) = false ∧
  Returned Identity_zero (Some (ErrGetToken "invalid_grant")) ≠ Panicked ∧
  ∃ answer rest,
    [EvExchange tt "c1" (inl "invalid_grant")] =
      EvExchange tt (Values_Get (URL_Query (ReqURL (request "code=c1&state=s1"))) "code")
        answer :: rest ∧
    match answer with
    | inl cause =>
        Returned Identity_zero (Some (ErrGetToken "invalid_grant"))
          = Returned Identity_zero (Some (ErrGetToken cause)) ∧ rest = []
    | inr token => ∃ userinfoAnswer rest', rest = EvUserInfo tt token userinfoAnswer :: rest'
    end.
Proof.
  evaluate. evaluate. split; [reflexivity|].
  exact (code_exchange (connector "" []) _ (request "code=c1&state=s1") _ _ _ _ eq_refl Hrun0 Hrun).
Defined.
